(** * AyurSutra patient dashboard: the conversational assistant

    A shallow embedding of the assistant logic of
    [src/pages/Dashboards/PatientDashboard.tsx]: the simulated translation
    function [translateText], the Gemini exchange [handleAskAI] and the
    voice toggle [handleToggleListening], together with the React state
    they read and write.

    JavaScript strings are sequences of UTF-16 code units, values read
    from the network are untyped JSON, and an [async] function is a tree
    of synchronous effects and suspension points. *)

From Stdlib Require Import String Ascii List Bool Arith NArith Lia.
From Stdlib Require Import Floats.SpecFloat DecimalString.
Import ListNotations.

Set Implicit Arguments.
#[local] Set Warnings "-register-all".

(** ** Strings *)

(** A JavaScript string: its UTF-16 code units. *)
Definition jsstring := list N.

(** An ASCII literal of the source, as code units. *)
Definition lit (s : string) : jsstring :=
  map N_of_ascii (list_ascii_of_string s).

Definition jsstring_eqb (a b : jsstring) : bool :=
  if list_eq_dec N.eq_dec a b then true else false.

(** [s.startsWith(p)]. *)
Fixpoint startsWith (s p : jsstring) : bool :=
  match p, s with
  | [], _ => true
  | _ :: _, [] => false
  | b :: p', a :: s' => N.eqb a b && startsWith s' p'
  end.

(** [s.split('-')[0]]: the part of [s] before its first hyphen, all of [s]
    when it has none. *)
Fixpoint split_hyphen_first (s : jsstring) : jsstring :=
  match s with
  | [] => []
  | c :: s' => if N.eqb c 45 then [] else c :: split_hyphen_first s'
  end.

(** The code units [String.prototype.trim] strips: ECMAScript WhiteSpace
    (TAB, VT, FF, SP, NBSP, ZWNBSP and the Unicode space separators) and
    LineTerminator (LF, CR, LS, PS). *)
Definition is_js_whitespace (c : N) : bool :=
  match c with
  | 9 | 10 | 11 | 12 | 13 | 32 | 160 | 5760
  | 8192 | 8193 | 8194 | 8195 | 8196 | 8197 | 8198 | 8199 | 8200 | 8201 | 8202
  | 8232 | 8233 | 8239 | 8287 | 12288 | 65279 => true
  | _ => false
  end%N.

Fixpoint trimStart (s : jsstring) : jsstring :=
  match s with
  | [] => []
  | c :: s' => if is_js_whitespace c then trimStart s' else s
  end.

Definition trimEnd (s : jsstring) : jsstring := rev (trimStart (rev s)).

(** [s.trim()]. *)
Definition trim (s : jsstring) : jsstring := trimEnd (trimStart s).

(** Empty or whitespace-only text. *)
Definition blank (s : jsstring) : bool := forallb is_js_whitespace s.

(** [pre ++ part ++ post]: [part] occurs in the string. *)
Definition contains (s part : jsstring) : Prop :=
  exists pre post, s = pre ++ part ++ post.

(** [s.includes(part)]. *)
Fixpoint includes (s part : jsstring) : bool :=
  match s with
  | [] => match part with [] => true | _ :: _ => false end
  | _ :: s' => startsWith s part || includes s' part
  end.

(** ** Values read from the network *)

(** A value produced by [JSON.parse] (which is what [response.json()]
    resolves to).  Numbers are IEEE-754 doubles; an object is the list of
    its own properties, each key occurring once. *)
Inductive json : Type :=
| JNull
| JBool (b : bool)
| JNum (x : spec_float)
| JStr (s : jsstring)
| JArr (items : list json)
| JObj (props : list (jsstring * json)).

(** What a promise settles to, and what [await] hands back. *)
Inductive Exn : Type :=
| Error (message : jsstring)            (* [new Error(message)] *)
| NullPropertyRead (prop : jsstring)    (* TypeError: reading [prop] of null *)
| HostFailure (name message : jsstring) (* a rejection made by the platform *).

Inductive Outcome (A : Type) : Type :=
| Fulfilled (a : A)
| RejectedWith (e : Exn).
Arguments RejectedWith {A} e.

(** The own property [key] of an object. *)
Fixpoint own_property (props : list (jsstring * json)) (key : jsstring)
  : option json :=
  match props with
  | [] => None
  | (k, v) :: rest => if jsstring_eqb k key then Some v else own_property rest key
  end.

(** The property key of an array index. *)
Definition index_key (i : nat) : jsstring :=
  lit (NilEmpty.string_of_uint (Nat.to_uint i)).

(** [v.name] for a value [v] that is neither null nor undefined and a
    [name] that no built-in prototype defines (the handler reads
    [candidates], [content], [parts] and [text]).  [None] is [undefined]. *)
Definition get_member (v : json) (name : jsstring) : option json :=
  match v with
  | JObj props => own_property props name
  | _ => None
  end.

(** [v[i]] for a value [v] that is neither null nor undefined. *)
Definition get_index (v : json) (i : nat) : option json :=
  match v with
  | JArr items => nth_error items i
  | JStr s => option_map (fun c => JStr [c]) (nth_error s i)
  | JObj props => own_property props (index_key i)
  | _ => None
  end.

(** [v?.name] and [v?.[i]]: undefined when [v] is null or undefined. *)
Definition opt_member (v : option json) (name : jsstring) : option json :=
  match v with
  | None | Some JNull => None
  | Some x => get_member x name
  end.

Definition opt_index (v : option json) (i : nat) : option json :=
  match v with
  | None | Some JNull => None
  | Some x => get_index x i
  end.

(** [v.name] without the question mark: reading a property of null
    throws a TypeError. *)
Definition member (v : json) (name : jsstring) : Exn + option json :=
  match v with
  | JNull => inl (NullPropertyRead name)
  | x => inr (get_member x name)
  end.

(** ToBoolean. *)
Definition truthy (v : option json) : bool :=
  match v with
  | None | Some JNull => false
  | Some (JBool b) => b
  | Some (JNum x) =>
      match x with
      | S754_zero _ | S754_nan => false
      | _ => true
      end
  | Some (JStr s) => match s with [] => false | _ => true end
  | Some (JArr _) | Some (JObj _) => true
  end.

(** [a || b] where [b] is a value. *)
Definition or_else (a : option json) (b : json) : json :=
  match a with
  | Some x => if truthy a then x else b
  | None => b
  end.

(** What the platform supplies: [JSON.stringify], the string conversion
    ToString that a template literal applies to a value that is not a
    string, and the configured API key.  ToString can throw: on an object
    with an own [toString] property, which a parsed body can hold and
    which is never callable, the conversion finds no primitive value and
    raises a TypeError. *)
Record Platform : Type := {
  JSON_stringify : json -> jsstring;
  ToString_other : json -> Exn + jsstring;
  apiKey : jsstring
}.

(** [`${v}`]: the string itself, the conversion of any other value, or
    the error the conversion throws. *)
Definition template (P : Platform) (v : json) : Exn + jsstring :=
  match v with
  | JStr s => inr s
  | _ => ToString_other P v
  end.

(** ** The component's state *)

Inductive Role : Type := user | model.

(** [type ChatMessage = { role: 'user' | 'model'; text: string }].  The
    reply text comes out of [result], which is [any]: at run time the
    field holds whatever value the handler stored, so it is a [json]. *)
Record ChatMessage : Type := { role : Role; text : json }.

(** The [useState] cells of the assistant. *)
Record State : Type := {
  userInput : jsstring;
  chatHistory : list ChatMessage;
  isLoading : bool;
  isListening : bool;
  selectedLanguage : jsstring
}.

(** [fetch]'s second argument and what it resolves to; [body] is what
    [response.json()] settles to for this response. *)
Record RequestInit : Type := {
  method : jsstring;
  headers : list (jsstring * jsstring);
  request_body : jsstring
}.

Record Response : Type := {
  ok : bool;
  statusText : jsstring;
  body : Outcome json
}.

(** The promises the handler awaits. *)
Inductive Call : Type :=
| fetch (url : jsstring) (init : RequestInit)
| response_json (response : Response).

Definition Answer (c : Call) : Type :=
  match c with
  | fetch _ _ => Response
  | response_json _ => json
  end.

(** The synchronous effects: the state setters, the console, [alert].
    [entered_translateText] marks a call of [translateText] with its
    arguments (target language, then source language) and changes
    nothing. *)
Inductive Action : Type :=
| setUserInput (value : jsstring)
| setChatHistory (value : list ChatMessage)
| setIsLoading (value : bool)
| setIsListening (value : bool)
| console_log (message : jsstring)
| console_error (label : jsstring) (error : Exn)
| console_error_text (label detail : jsstring)
| alert (message : jsstring)
| entered_translateText (text : json) (targetLang sourceLang : jsstring).

(** ** Asynchronous functions *)

(** The body of an [async] function: it returns, throws, performs a
    synchronous effect, or suspends on a promise and goes on with what
    the promise settles to. *)
Inductive Async (A : Type) : Type :=
| Return (a : A)
| Throw (e : Exn)
| Do (act : Action) (k : Async A)
| Await (c : Call) (k : Outcome (Answer c) -> Async A).
Arguments Throw {A} e.
Arguments Do {A} act k.
Arguments Await {A} c k.

Fixpoint bind {A B : Type} (m : Async A) (f : A -> Async B) : Async B :=
  match m with
  | Return a => f a
  | Throw e => Throw e
  | Do act k => Do act (bind k f)
  | Await c k => Await c (fun r => bind (k r) f)
  end.

Declare Scope async_scope.
Delimit Scope async_scope with async.
Notation "x <- m ;; k" := (bind m (fun x => k))
  (at level 61, m at next level, right associativity) : async_scope.
Notation "m ;;; k" := (bind m (fun _ => k))
  (at level 61, right associativity) : async_scope.
Open Scope async_scope.

Definition perform (a : Action) : Async unit := Do a (Return tt).

(** [await p]: the value of a fulfilled promise; a rejection is thrown. *)
Definition await (c : Call) : Async (Answer c) :=
  Await c (fun r =>
    match r with
    | Fulfilled v => Return v
    | RejectedWith e => Throw e
    end).

(** An expression that may throw. *)
Definition eval {A : Type} (r : Exn + A) : Async A :=
  match r with
  | inl e => Throw e
  | inr a => Return a
  end.

(** [try { body } catch (error) { handler error }]. *)
Fixpoint try_catch {A : Type} (body : Async A) (handler : Exn -> Async A)
  : Async A :=
  match body with
  | Return a => Return a
  | Throw e => handler e
  | Do act k => Do act (try_catch k handler)
  | Await c k => Await c (fun r => try_catch (k r) handler)
  end.

(** [try { body } finally { cleanup }]. *)
Fixpoint try_finally {A : Type} (body : Async A) (cleanup : Async unit)
  : Async A :=
  match body with
  | Return a => cleanup ;;; Return a
  | Throw e => cleanup ;;; Throw e
  | Do act k => Do act (try_finally k cleanup)
  | Await c k => Await c (fun r => try_finally (k r) cleanup)
  end.

Definition try_catch_finally {A : Type} (body : Async A)
  (handler : Exn -> Async A) (cleanup : Async unit) : Async A :=
  try_finally (try_catch body handler) cleanup.

(** The value of a function that returns without suspending. *)
Fixpoint returned {A : Type} (m : Async A) : option A :=
  match m with
  | Return a => Some a
  | Throw _ => None
  | Do _ k => returned k
  | Await _ _ => None
  end.

(** The promise a function first suspends on; none, when it runs to its
    end without suspending. *)
Fixpoint first_await {A : Type} (m : Async A) : option Call :=
  match m with
  | Return _ | Throw _ => None
  | Do _ k => first_await k
  | Await c _ => Some c
  end.

(** ** The assistant *)

Definition dquote : jsstring := [34%N].
Definition newline : jsstring := [10%N].

Section Assistant.

Variable P : Platform.

(** [translateText(text, targetLang, sourceLang = 'en-US')], the simulated
    translation: text for an English target comes back as it is, any
    other target gets its language code in brackets in front.  Each of
    the two template literals converts [text] to a string, the first one
    before anything is logged; a conversion that throws makes the
    function throw. *)
Definition translateText (text : json) (targetLang : jsstring)
  (sourceLang : option jsstring) : Async json :=
  let sourceLang := match sourceLang with Some l => l | None => lit "en-US" end in
  perform (entered_translateText text targetLang sourceLang) ;;;
  logged <- eval (template P text) ;;
  perform (console_log (lit "Simulating translation from " ++ sourceLang
                        ++ lit " to " ++ targetLang ++ lit ": " ++ dquote
                        ++ logged ++ dquote)) ;;;
  if startsWith targetLang (lit "en") then Return text
  else
    printed <- eval (template P text) ;;
    Return (JStr (lit "[" ++ split_hyphen_first targetLang ++ lit "] "
                  ++ printed)).

Definition systemPrompt : jsstring :=
  lit "You are " ++ dquote ++ lit "AyurSutra Assistant," ++ dquote
  ++ lit " a specialized AI for a patient named Priya. " ++ newline
  ++ lit "      Your purpose is to provide helpful, safe, and supportive guidance based on Ayurvedic principles in English." ++ newline
  ++ lit "      Priya's current treatment plan includes Abhyanga, Shirodhara, and Herbal Steam Baths." ++ newline
  ++ lit "      Her primary goals are stress reduction and improving digestion." ++ newline
  ++ lit "      " ++ newline
  ++ lit "      RULES:" ++ newline
  ++ lit "      1. Always be gentle, empathetic, and encouraging. Your response MUST be in English." ++ newline
  ++ lit "      2. **Crucially, you must ALWAYS include this disclaimer at the end of your response: "
  ++ dquote ++ lit "This is AI-generated advice. Please consult your Vaidya (doctor) for any medical decisions." ++ dquote
  ++ lit "**" ++ newline
  ++ lit "      3. Keep responses concise (2-4 sentences).".

Definition apiUrl : jsstring :=
  lit "https://generativelanguage.googleapis.com/v1beta/models/gemini-1.5-flash:generateContent?key="
  ++ apiKey P.

Definition payload (englishQuery : json) : json :=
  JObj [ (lit "contents",
          JArr [ JObj [ (lit "role", JStr (lit "user"));
                        (lit "parts", JArr [ JObj [ (lit "text", englishQuery) ] ]) ] ]);
         (lit "systemInstruction",
          JObj [ (lit "parts", JArr [ JObj [ (lit "text", JStr systemPrompt) ] ]) ]) ].

(** [result.candidates?.[0]?.content?.parts?.[0]?.text]. *)
Definition candidate_text (result : json) : Exn + option json :=
  match member result (lit "candidates") with
  | inl e => inl e
  | inr candidates =>
      inr (opt_member
             (opt_index
                (opt_member
                   (opt_member (opt_index candidates 0) (lit "content"))
                   (lit "parts"))
                0)
             (lit "text"))
  end.

Definition placeholder : jsstring := lit "Sorry, I couldn't process that.".

Definition apology : jsstring :=
  lit "I'm having trouble connecting right now. Please try again.".

(** What [handleAskAI] does with the bridge [translate] in the place of
    [translateText]; [st] is the state of the render the handler closes
    over. *)
Definition handleAskAI_with
  (translate : json -> jsstring -> option jsstring -> Async json)
  (st : State) : Async unit :=
  if negb (truthy (Some (JStr (trim (userInput st))))) || isLoading st
  then Return tt
  else
    perform (setIsLoading true) ;;;
    let userMessage := {| role := user; text := JStr (userInput st) |} in
    let updatedHistory := chatHistory st ++ [userMessage] in
    perform (setChatHistory updatedHistory) ;;;
    perform (setUserInput []) ;;;
    englishQuery <-
      (if startsWith (selectedLanguage st) (lit "en")
       then Return (JStr (userInput st))
       else translate (JStr (userInput st)) (lit "en-US")
                      (Some (selectedLanguage st))) ;;
    try_catch_finally
      (response <-
         await (fetch apiUrl
                  {| method := lit "POST";
                     headers := [ (lit "Content-Type", lit "application/json") ];
                     request_body := JSON_stringify P (payload englishQuery) |}) ;;
       (if negb (ok response)
        then
          errorData <- await (response_json response) ;;
          Throw (Error (lit "API error: " ++ statusText response ++ lit " - "
                        ++ JSON_stringify P errorData))
        else Return tt) ;;;
       result <- await (response_json response) ;;
       candidate <- eval (candidate_text result) ;;
       let modelResponseInEnglish := or_else candidate (JStr placeholder) in
       translatedResponse <-
         (if startsWith (selectedLanguage st) (lit "en")
          then Return modelResponseInEnglish
          else translate modelResponseInEnglish (selectedLanguage st) None) ;;
       let modelMessage := {| role := model; text := translatedResponse |} in
       perform (setChatHistory (updatedHistory ++ [modelMessage])))
      (fun error =>
         perform (console_error (lit "Gemini API call failed:") error) ;;;
         let errorMessage := {| role := model; text := JStr apology |} in
         perform (setChatHistory (updatedHistory ++ [errorMessage])))
      (perform (setIsLoading false)).

(** [handleAskAI]. *)
Definition handleAskAI (st : State) : Async unit :=
  handleAskAI_with translateText st.

End Assistant.

(** ** The page at run time *)

(** The module-level [recognition] object: its [lang] property and, once
    [handleToggleListening] has assigned [onresult], [onerror] and
    [onend], the [selectedLanguage] those callbacks close over. *)
Record Recognition : Type := {
  lang : jsstring;
  callbacks : option jsstring
}.

(** A handler suspended at an [await]. *)
Record Suspended : Type := {
  awaited : Call;
  resume : Outcome (Answer awaited) -> Async unit
}.

(** What the page does that can be seen from outside. *)
Inductive Obs : Type :=
| did (a : Action)
| called (c : Call)
| unhandled_rejection (e : Exn)
| recognition_start (language : jsstring)
| recognition_stop.

Record World : Type := {
  ui : State;
  recognition : option Recognition;
  pending : list Suspended;
  trace : list Obs
}.

Definition with_ui (f : State -> State) (w : World) : World :=
  {| ui := f (ui w); recognition := recognition w;
     pending := pending w; trace := trace w |}.

Definition with_recognition (r : Recognition) (w : World) : World :=
  {| ui := ui w; recognition := Some r;
     pending := pending w; trace := trace w |}.

Definition with_pending (l : list Suspended) (w : World) : World :=
  {| ui := ui w; recognition := recognition w;
     pending := l; trace := trace w |}.

Definition log (o : Obs) (w : World) : World :=
  {| ui := ui w; recognition := recognition w;
     pending := pending w; trace := trace w ++ [o] |}.

(** A state setter stores its argument; every other effect is seen. *)
Definition apply_action (a : Action) (w : World) : World :=
  match a with
  | setUserInput v =>
      with_ui (fun s => {| userInput := v; chatHistory := chatHistory s;
                           isLoading := isLoading s; isListening := isListening s;
                           selectedLanguage := selectedLanguage s |}) w
  | setChatHistory v =>
      with_ui (fun s => {| userInput := userInput s; chatHistory := v;
                           isLoading := isLoading s; isListening := isListening s;
                           selectedLanguage := selectedLanguage s |}) w
  | setIsLoading v =>
      with_ui (fun s => {| userInput := userInput s; chatHistory := chatHistory s;
                           isLoading := v; isListening := isListening s;
                           selectedLanguage := selectedLanguage s |}) w
  | setIsListening v =>
      with_ui (fun s => {| userInput := userInput s; chatHistory := chatHistory s;
                           isLoading := isLoading s; isListening := v;
                           selectedLanguage := selectedLanguage s |}) w
  | _ => log (did a) w
  end.

Definition setSelectedLanguage (v : jsstring) (w : World) : World :=
  with_ui (fun s => {| userInput := userInput s; chatHistory := chatHistory s;
                       isLoading := isLoading s; isListening := isListening s;
                       selectedLanguage := v |}) w.

(** Runs a handler up to its next suspension point.  A handler that
    throws leaves its promise rejected, and nobody handles it. *)
Fixpoint exec (m : Async unit) (w : World) : World :=
  match m with
  | Return _ => w
  | Throw e => log (unhandled_rejection e) w
  | Do a k => exec k (apply_action a w)
  | Await c k =>
      with_pending (pending w ++ [ {| awaited := c; resume := k |} ])
                   (log (called c) w)
  end.

Definition unsupported_language (language : jsstring) : jsstring :=
  lit "Sorry, your browser does not support the selected language ("
  ++ language
  ++ lit "). Please try English or check if the language pack is installed on your system.".

(** [handleToggleListening]; [start_throws] is what [recognition.start()]
    throws, if it does. *)
Definition handleToggleListening (start_throws : option Exn) (w : World)
  : World :=
  match recognition w with
  | None =>
      apply_action
        (alert (lit "Sorry, your browser doesn't support voice recognition.")) w
  | Some r =>
      if isListening (ui w)
      then apply_action (setIsListening false) (log recognition_stop w)
      else
        let language := selectedLanguage (ui w) in
        let w := with_recognition {| lang := language; callbacks := callbacks r |} w in
        match start_throws with
        | Some error =>
            let w := apply_action
                       (console_error (lit "Speech recognition start error:") error) w in
            let w := apply_action (alert (unsupported_language language)) w in
            apply_action (setIsListening false) w
        | None =>
            let w := log (recognition_start language) w in
            let w := apply_action (setIsListening true) w in
            with_recognition {| lang := language; callbacks := Some language |} w
        end
  end.

(** [recognition.onresult], with [event.results[0][0].transcript]. *)
Definition onresult (transcript : jsstring) (w : World) : World :=
  apply_action (setIsListening false) (apply_action (setUserInput transcript) w).

(** [recognition.onerror], with [event.error]; [language] is the
    [selectedLanguage] the callback closes over. *)
Definition onerror (language error : jsstring) (w : World) : World :=
  let w :=
    if jsstring_eqb error (lit "language-not-supported")
    then apply_action (alert (unsupported_language language)) w
    else apply_action (console_error_text (lit "Speech recognition error:") error) w in
  apply_action (setIsListening false) w.

(** [recognition.onend]. *)
Definition onend (w : World) : World := apply_action (setIsListening false) w.

(** What happens to the page: the user types, picks a language, submits
    (Enter or the Send button) or presses the microphone button, the
    recognition service fires one of its events, or a promise a handler
    awaits settles. *)
Inductive Event : Type :=
| ChangeInput (value : jsstring)
| SelectLanguage (tag : jsstring)
| AskAI
| ToggleListening (start_throws : option Exn)
| RecognitionResult (transcript : jsstring)
| RecognitionError (error : jsstring)
| RecognitionEnd
| FetchSettled (i : nat) (r : Outcome Response)
| BodyRead (i : nat).

Fixpoint remove_nth {A : Type} (i : nat) (l : list A) : list A :=
  match i, l with
  | _, [] => []
  | O, _ :: l' => l'
  | S i', a :: l' => a :: remove_nth i' l'
  end.

(** The fetch promise of the [i]-th suspended handler settles to [r]. *)
Definition settle_fetch (i : nat) (r : Outcome Response) (w : World) : World :=
  match nth_error (pending w) i with
  | Some {| awaited := c; resume := k |} =>
      match c return (Outcome (Answer c) -> Async unit) -> World with
      | fetch _ _ => fun k => exec (k r) (with_pending (remove_nth i (pending w)) w)
      | response_json _ => fun _ => w
      end k
  | None => w
  end.

(** The body of the response the [i]-th suspended handler reads has been
    read and parsed. *)
Definition settle_body (i : nat) (w : World) : World :=
  match nth_error (pending w) i with
  | Some {| awaited := c; resume := k |} =>
      match c return (Outcome (Answer c) -> Async unit) -> World with
      | fetch _ _ => fun _ => w
      | response_json response =>
          fun k => exec (k (body response))
                        (with_pending (remove_nth i (pending w)) w)
      end k
  | None => w
  end.

Section Page.

Variable P : Platform.

(** One event, handled by the callbacks of the current render.  React
    renders again after every handler and every resumed continuation, so
    a callback reads the state cells as they are when the event arrives,
    while a suspended handler keeps the values it closed over. *)
Definition step (w : World) (e : Event) : World :=
  match e with
  | ChangeInput value => apply_action (setUserInput value) w
  | SelectLanguage tag => setSelectedLanguage tag w
  | AskAI => exec (handleAskAI P (ui w)) w
  | ToggleListening start_throws => handleToggleListening start_throws w
  | RecognitionResult transcript =>
      match recognition w with
      | Some {| callbacks := Some _ |} => onresult transcript w
      | _ => w
      end
  | RecognitionError error =>
      match recognition w with
      | Some {| callbacks := Some language |} => onerror language error w
      | _ => w
      end
  | RecognitionEnd =>
      match recognition w with
      | Some {| callbacks := Some _ |} => onend w
      | _ => w
      end
  | FetchSettled i r => settle_fetch i r w
  | BodyRead i => settle_body i w
  end.

Definition run (w : World) (events : list Event) : World :=
  fold_left step events w.

(** The page when the component mounts; [supported] says whether the
    browser has a SpeechRecognition constructor. *)
Definition mounted (supported : bool) : World :=
  {| ui := {| userInput := []; chatHistory := []; isLoading := false;
              isListening := false; selectedLanguage := lit "en-US" |};
     recognition := if supported
                    then Some {| lang := []; callbacks := None |}
                    else None;
     pending := [];
     trace := [] |}.

Definition reachable (w : World) : Prop :=
  exists supported events, w = run (mounted supported) events.

End Page.

(** ** Observing an exchange *)

(** The generation step fails: the fetch promise rejects, the response
    is not 2xx, its body does not parse, or it parses to null (reading
    [result.candidates] then throws). *)
Definition exchange_fails (r : Outcome Response) : bool :=
  match r with
  | RejectedWith _ => true
  | Fulfilled response =>
      negb (ok response)
      || match body response with
         | RejectedWith _ => true
         | Fulfilled JNull => true
         | Fulfilled _ => false
         end
  end.

(** The errors that escaped a handler. *)
Definition rejections (t : list Obs) : list Exn :=
  flat_map (fun o => match o with unhandled_rejection e => [e] | _ => [] end) t.

(** The calls of the two services of an exchange, in the order they were
    made: the translation bridge (text, target language, source
    language) and the generation service. *)
Inductive ServiceCall : Type :=
| translate_call (text : json) (targetLang sourceLang : jsstring)
| generate_call (url : jsstring) (init : RequestInit).

Definition service_calls (t : list Obs) : list ServiceCall :=
  flat_map (fun o =>
              match o with
              | did (entered_translateText text target source) =>
                  [translate_call text target source]
              | called (fetch url init) => [generate_call url init]
              | _ => []
              end) t.

(** The request [handleAskAI] sends for the English query [q]. *)
Definition generation_request (P : Platform) (q : json) : RequestInit :=
  {| method := lit "POST";
     headers := [ (lit "Content-Type", lit "application/json") ];
     request_body := JSON_stringify P (payload q) |}.

Definition user_message (input : jsstring) : ChatMessage :=
  {| role := user; text := JStr input |}.

Definition model_message (reply : json) : ChatMessage :=
  {| role := model; text := reply |}.

(** The errors that reached a [catch] block (each one logs what it
    caught). *)
Definition caught (t : list Obs) : list Exn :=
  flat_map (fun o => match o with did (console_error _ e) => [e] | _ => [] end) t.

(** A bridge that fails: the promise it returns rejects. *)
Definition failing_bridge (e : Exn)
  : json -> jsstring -> option jsstring -> Async json :=
  fun _ _ _ => Throw e.

(** ** The shape of a session *)

(** Effects that leave the state cells alone. *)
Definition quiet (a : Action) : bool :=
  match a with
  | setUserInput _ | setChatHistory _ | setIsLoading _ | setIsListening _ => false
  | _ => true
  end.

(** What is left of an exchange whose user message already closes the
    history [h]: whatever the awaited promises settle to, it touches no
    state cell until it appends one message of the model to [h] and
    clears the flag, and it ends there. *)
Inductive Finishing (h : list ChatMessage) : Async unit -> Prop :=
| finishing_append (m : ChatMessage) :
    role m = model ->
    Finishing h (Do (setChatHistory (h ++ [m])) (Do (setIsLoading false) (Return tt)))
| finishing_quiet (a : Action) (k : Async unit) :
    quiet a = true -> Finishing h k -> Finishing h (Do a k)
| finishing_await (c : Call) (k : Outcome (Answer c) -> Async unit) :
    (forall r, Finishing h (k r)) -> Finishing h (Await c k).

(** A history made of completed exchanges: a user message, then the
    message of the model that answers it, and so on. *)
Inductive Exchanges : list ChatMessage -> Prop :=
| exchanges_none : Exchanges []
| exchanges_more (h : list ChatMessage) (u m : ChatMessage) :
    Exchanges h -> role u = user -> role m = model -> Exchanges (h ++ [u; m]).

(** The part of the page an exchange lives in. *)
Definition core (w : World) : list ChatMessage * bool * list Suspended :=
  (chatHistory (ui w), isLoading (ui w), pending w).

(** Either the page is idle, the flag false and the history made of
    completed exchanges, or exactly one handler is suspended, the flag
    is true, and the history is completed exchanges followed by the user
    message that handler is answering. *)
Definition consistent (w : World) : Prop :=
  match pending w with
  | [] => isLoading (ui w) = false /\ Exchanges (chatHistory (ui w))
  | [s] =>
      isLoading (ui w) = true
      /\ (exists h u, chatHistory (ui w) = h ++ [u] /\ Exchanges h /\ role u = user)
      /\ forall r, Finishing (chatHistory (ui w)) (resume s r)
  | _ => False
  end.

(** Events that settle no promise. *)
Definition bystander (e : Event) : bool :=
  match e with
  | FetchSettled _ _ | BodyRead _ => false
  | _ => true
  end.

(** Events that neither settle a promise nor submit. *)
Definition onlooker (e : Event) : bool :=
  match e with
  | FetchSettled _ _ | BodyRead _ | AskAI => false
  | _ => true
  end.

(** A complete exchange as the page lives it: after whatever the user
    does beforehand, they pick a language, type and submit; the
    generation service answers; the body is read.  Other things may
    happen while the request is out and while the body is read. *)
Record Exchange : Type := {
  beforehand : list Event;
  language : jsstring;
  input : jsstring;
  answer : Response;
  while_generating : list Event;
  while_reading : list Event
}.

Definition events_of (x : Exchange) : list Event :=
  beforehand x
  ++ [SelectLanguage (language x); ChangeInput (input x); AskAI]
  ++ while_generating x
  ++ [FetchSettled 0 (Fulfilled (answer x))]
  ++ while_reading x
  ++ [BodyRead 0].

(** The exchange passes the guard, the service answers with a reply,
    nothing is submitted beforehand, and what happens meanwhile settles
    no promise. *)
Definition successful (x : Exchange) : bool :=
  negb (blank (input x))
  && negb (exchange_fails (Fulfilled (answer x)))
  && forallb onlooker (beforehand x)
  && forallb bystander (while_generating x)
  && forallb bystander (while_reading x).

(** The two messages an exchange leaves in the history, given the reply. *)
Definition exchange_messages (xr : Exchange * json) : list ChatMessage :=
  [user_message (input (fst xr)); model_message (snd xr)].

(** The TypeError of a conversion that finds no primitive value. *)
Definition no_primitive_value : Exn :=
  HostFailure (lit "TypeError") (lit "Cannot convert object to primitive value").

(** A platform for the worked examples.  [JSON.stringify] prints every
    value as [{}].  ToString converts an object as ECMAScript does: it
    throws when the object has an own [toString] property and gives
    [[object Object]] otherwise; null and the booleans give their names.
    No example converts a number or an array: the empty string stands
    in for their conversions. *)
Definition example_platform : Platform :=
  {| JSON_stringify := fun _ => lit "{}";
     ToString_other :=
       fun v =>
         match v with
         | JObj props =>
             match own_property props (lit "toString") with
             | Some _ => inl no_primitive_value
             | None => inr (lit "[object Object]")
             end
         | JNull => inr (lit "null")
         | JBool true => inr (lit "true")
         | JBool false => inr (lit "false")
         | JStr s => inr s
         | JNum _ | JArr _ => inr []
         end;
     apiKey := lit "KEY" |}.

(** A reply whose text is [v]. *)
Definition reply_with (v : json) : json :=
  JObj [(lit "candidates",
         JArr [JObj [(lit "content",
                      JObj [(lit "parts", JArr [JObj [(lit "text", v)]])])]])].

(** A text that is truthy and cannot be converted to a string:
    [{"toString": 0}]. *)
Definition unprintable : json := JObj [(lit "toString", JNum (S754_zero false))].

(** The page after the user has typed [input] into the text field, in
    the language selected at mount (English) or after selecting [tag]. *)
Definition typed (input : jsstring) : World :=
  step example_platform (mounted true) (ChangeInput input).

Definition typed_in (tag input : jsstring) : World :=
  run example_platform (mounted true) [SelectLanguage tag; ChangeInput input].

(** A 200 response whose body parses to [result]. *)
Definition ok_response (result : json) : Response :=
  {| ok := true; statusText := lit "OK"; body := Fulfilled result |}.

(** The network is down: [fetch] rejects. *)
Definition fetch_failed : Outcome Response :=
  RejectedWith (HostFailure (lit "TypeError") (lit "Failed to fetch")).

(** The text "मुझे तनाव है". *)
Definition mujhe_tanaav_hai : jsstring :=
  [2350; 2369; 2333; 2375; 32; 2340; 2344; 2366; 2357; 32; 2361; 2376]%N.

(** Two exchanges, the first in Hindi and answered without text, with
    the user typing, submitting again and switching language while it
    is in flight, the second in English after a dictation. *)
Definition sample_exchanges : list Exchange :=
  [ {| beforehand := [];
       language := lit "hi-IN"; input := mujhe_tanaav_hai;
       answer := ok_response (JObj []);
       while_generating := [ChangeInput (lit "again"); AskAI];
       while_reading := [SelectLanguage (lit "en-US"); AskAI] |};
    {| beforehand := [ToggleListening None; RecognitionResult (lit "sleep")];
       language := lit "en-US"; input := lit "How do I sleep better?";
       answer := ok_response (JStr (lit "text"));
       while_generating := [];
       while_reading := [RecognitionEnd] |} ].

(** ** The rest of the assistant's controls *)

(** What [speakText] does: it hands an utterance to the speech
    synthesis, or tells the user it cannot. *)
Inductive Speech : Type :=
| spoken (utterance_text : json) (utterance_lang : jsstring)
| speech_alert (message : jsstring).

(** [speakText(text, lang)]; [synthesis] says whether
    ['speechSynthesis' in window]. *)
Definition speakText (synthesis : bool) (text : json) (lang : jsstring)
  : Speech :=
  if synthesis
  then spoken text lang
  else speech_alert (lit "Sorry, your browser doesn't support text-to-speech.").

(** What React accepts as the child [{msg.text}]: strings and numbers
    are drawn, booleans and null draw nothing, an array is accepted when
    each of its items is, and a plain object makes the render throw. *)
Fixpoint renderable (v : json) : bool :=
  match v with
  | JObj _ => false
  | JArr items => forallb renderable items
  | _ => true
  end.

(** The list of messages can be rendered. *)
Definition chat_renders (w : World) : bool :=
  forallb (fun msg => renderable (text msg)) (chatHistory (ui w)).

(** The loudspeaker button of the [index]-th message of the history,
    with the assistant on screen: when the list of messages renders, the
    button exists for the messages of the model only, and pressing it
    calls [speakText(msg.text, selectedLanguage)]; when a message cannot
    be rendered the render throws and there is no button at all. *)
Definition speak_button (synthesis : bool) (w : World) (index : nat)
  : option Speech :=
  if chat_renders w
  then match nth_error (chatHistory (ui w)) index with
       | Some msg =>
           match role msg with
           | model =>
               Some (speakText synthesis (text msg) (selectedLanguage (ui w)))
           | user => None
           end
       | None => None
       end
  else None.

(** The [disabled] attributes of the text field, of the Send button and
    of the microphone button. *)
Definition input_disabled (st : State) : bool :=
  isLoading st || isListening st.

Definition send_disabled (st : State) : bool :=
  isLoading st || negb (truthy (Some (JStr (trim (userInput st))))).

Definition mic_disabled (w : World) : bool :=
  match recognition w with
  | None => true
  | Some _ => false
  end.

Definition no_voice_support : jsstring :=
  lit "Sorry, your browser doesn't support voice recognition.".

(** The promises awaited, in the order the handlers awaited them. *)
Definition promises (t : list Obs) : list Call :=
  flat_map (fun o => match o with called c => [c] | _ => [] end) t.

(** The roles of a conversation of [n] messages that starts with the
    user and takes turns. *)
Fixpoint turns (n : nat) : list Role :=
  match n with
  | O => []
  | S k => turns k ++ [if Nat.even k then user else model]
  end.

(** The bracketed tag the simulated translation puts in front of a text
    for the target language [targetLang]. *)
Definition language_tag (targetLang : jsstring) : jsstring :=
  lit "[" ++ split_hyphen_first targetLang ++ lit "] ".

(** ** An exchange from end to end *)

(** The line [translateText] writes to the console, given the text as
    the template literal printed it. *)
Definition translation_log (printed targetLang sourceLang : jsstring)
  : jsstring :=
  lit "Simulating translation from " ++ sourceLang
  ++ lit " to " ++ targetLang ++ lit ": " ++ dquote
  ++ printed ++ dquote.

(** What the [try] block of an exchange comes to, up to the reply in
    English, when the request settles to [r]: the error thrown, or the
    reply in English. *)
Definition attempt (P : Platform) (r : Outcome Response) : Exn + json :=
  match r with
  | RejectedWith e => inl e
  | Fulfilled response =>
      match body response with
      | RejectedWith e => inl e
      | Fulfilled j =>
          if ok response
          then match candidate_text j with
               | inl e => inl e
               | inr candidate => inr (or_else candidate (JStr placeholder))
               end
          else inl (Error (lit "API error: " ++ statusText response ++ lit " - "
                           ++ JSON_stringify P j))
      end
  end.

(** The second translation step: the reply as it is in an English
    session; in any other session the tagged reply, or the error the
    conversion of the reply throws. *)
Definition translated_back (P : Platform) (language : jsstring) (reply : json)
  : Exn + json :=
  if startsWith language (lit "en") then inr reply
  else match template P reply with
       | inl e => inl e
       | inr printed =>
           inr (JStr (lit "[" ++ split_hyphen_first language ++ lit "] "
                      ++ printed))
       end.

(** What the whole [try] block comes to: the error the [catch] block
    receives, or the text of the message to append. *)
Definition outcome (P : Platform) (language : jsstring) (r : Outcome Response)
  : Exn + json :=
  match attempt P r with
  | inl e => inl e
  | inr reply => translated_back P language reply
  end.

(** The text of the message the exchange appends for the model. *)
Definition appended_reply (P : Platform) (language : jsstring)
  (r : Outcome Response) : json :=
  match outcome P language r with
  | inl _ => JStr apology
  | inr reply => reply
  end.

(** What the exchange lets see, in order. *)
Definition exchange_observations (P : Platform) (language text : jsstring)
  (r : Outcome Response) : list Obs :=
  (if startsWith language (lit "en") then []
   else [did (entered_translateText (JStr text) (lit "en-US") language);
         did (console_log (translation_log text (lit "en-US") language))])
  ++ [called (fetch (apiUrl P) (generation_request P (JStr text)))]
  ++ match r with
     | Fulfilled response => [called (response_json response)]
     | RejectedWith _ => []
     end
  ++ match attempt P r with
     | inl e => [did (console_error (lit "Gemini API call failed:") e)]
     | inr reply =>
         if startsWith language (lit "en") then []
         else [did (entered_translateText reply language (lit "en-US"));
               match template P reply with
               | inl e => did (console_error (lit "Gemini API call failed:") e)
               | inr printed =>
                   did (console_log (translation_log printed language (lit "en-US")))
               end]
     end.

(** The page once the exchange submitted on the idle page [w] is over. *)
Definition after_exchange (P : Platform) (w : World) (r : Outcome Response)
  : World :=
  {| ui := {| userInput := [];
              chatHistory :=
                (chatHistory (ui w) ++ [user_message (userInput (ui w))])
                ++ [model_message
                      (appended_reply P (selectedLanguage (ui w)) r)];
              isLoading := false;
              isListening := isListening (ui w);
              selectedLanguage := selectedLanguage (ui w) |};
     recognition := recognition w;
     pending := [];
     trace := fold_left (fun t o => t ++ [o])
                (exchange_observations P (selectedLanguage (ui w))
                   (userInput (ui w)) r)
                (trace w) |}.

(** ** The tabs *)

(** The tab buttons, key and label, in the order they are rendered.
    Pressing the button of a tab calls [setActiveTab(tab.key)]. *)
Definition tabs : list (jsstring * jsstring) :=
  [ (lit "overview", lit "Overview");
    (lit "sessions", lit "Sessions");
    (lit "progress", lit "Progress");
    (lit "guidance", lit "Daily Guidance") ].

(** [activeTab] after a press on the [i]-th tab button (there is nothing
    to press beyond the last button). *)
Definition press_tab (activeTab : jsstring) (i : nat) : jsstring :=
  match nth_error tabs i with
  | Some (key, _) => key
  | None => activeTab
  end.

(** The tab buttons drawn as active: those with [activeTab === tab.key]. *)
Definition highlighted (activeTab : jsstring) : list jsstring :=
  map snd (filter (fun tab => jsstring_eqb activeTab (fst tab)) tabs).

(** The four blocks of the page, each rendered under its own test
    [activeTab === '...']; the assistant is part of the last one. *)
Inductive Block : Type := Overview | Sessions | Progress | Guidance.

(** The ReferenceError of reading [progressData], an identifier the
    file declares nowhere. *)
Definition progressData_undefined : Exn :=
  HostFailure (lit "ReferenceError") (lit "progressData is not defined").

(** The blocks a render draws, in the order the tests are evaluated.
    The Progress block maps over [progressData]: evaluating it throws,
    and the render with it. *)
Definition rendered (activeTab : jsstring) : Exn + list Block :=
  let overview :=
    if jsstring_eqb activeTab (lit "overview") then [Overview] else [] in
  let sessions :=
    if jsstring_eqb activeTab (lit "sessions") then [Sessions] else [] in
  if jsstring_eqb activeTab (lit "progress") then inl progressData_undefined
  else
    let guidance :=
      if jsstring_eqb activeTab (lit "guidance") then [Guidance] else [] in
    inr (overview ++ sessions ++ guidance).

(** The block a tab button stands for, by its position. *)
Definition block_of_tab (i : nat) : option Block :=
  nth_error [Overview; Sessions; Progress; Guidance] i.

(** The tab buttons pressed one after the other, the page rendering
    again after each press: [activeTab] in the end, or the error of the
    render that threw, after which there is no page to press on. *)
Fixpoint press_all (activeTab : jsstring) (presses : list nat)
  : Exn + jsstring :=
  match presses with
  | [] => inr activeTab
  | i :: rest =>
      match rendered (press_tab activeTab i) with
      | inl e => inl e
      | inr _ => press_all (press_tab activeTab i) rest
      end
  end.

(** The third tab button, Progress, is among the buttons pressed. *)
Definition presses_progress (presses : list nat) : bool :=
  existsb (Nat.eqb 2) presses.

(** * Properties *)

Arguments lit : simpl never.
Arguments systemPrompt : simpl never.
Arguments apiUrl : simpl never.
Arguments payload : simpl never.
Arguments placeholder : simpl never.
Arguments candidate_text : simpl never.
Arguments apology : simpl never.
Arguments unsupported_language : simpl never.
Arguments attempt : simpl never.

(** ** Trimming *)

Lemma trimStart_nil_iff (s : jsstring) : trimStart s = [] <-> blank s = true.
Proof.
  induction s as [|c s IH]; simpl.
  - tauto.
  - destruct (is_js_whitespace c); simpl.
    + exact IH.
    + split; discriminate.
Qed.

Lemma blank_trimStart (s : jsstring) : blank (trimStart s) = blank s.
Proof.
  induction s as [|c s IH]; simpl; [reflexivity|].
  destruct (is_js_whitespace c) eqn:E; simpl.
  - exact IH.
  - now rewrite E.
Qed.

Lemma blank_rev (s : jsstring) : blank (rev s) = blank s.
Proof.
  unfold blank.
  induction s as [|c s IH]; simpl; [reflexivity|].
  rewrite forallb_app, IH; simpl.
  rewrite andb_true_r. apply andb_comm.
Qed.

Lemma trim_nil_iff (s : jsstring) : trim s = [] <-> blank s = true.
Proof.
  unfold trim, trimEnd.
  rewrite <- (blank_trimStart s), <- (blank_rev (trimStart s)).
  rewrite <- trimStart_nil_iff.
  split; intros H.
  - apply (f_equal (@rev N)) in H. now rewrite rev_involutive in H.
  - now rewrite H.
Qed.

Lemma truthy_trim (s : jsstring) :
  truthy (Some (JStr (trim s))) = negb (blank s).
Proof.
  destruct (blank s) eqn:B; simpl.
  - apply trim_nil_iff in B. now rewrite B.
  - destruct (trim s) eqn:T; [|reflexivity].
    apply trim_nil_iff in T. congruence.
Qed.

(** ** The translation bridge *)

Lemma template_string (P : Platform) (s : jsstring) :
  template P (JStr s) = inr s.
Proof. reflexivity. Qed.

(** A call of [translateText] on a text the template literals can print:
    it logs the line and returns. *)
Lemma translateText_printable
  (P : Platform) (text : json) (printed targetLang : jsstring)
  (sourceLang : option jsstring) :
  template P text = inr printed ->
  translateText P text targetLang sourceLang
  = let source := match sourceLang with Some l => l | None => lit "en-US" end in
    Do (entered_translateText text targetLang source)
      (Do (console_log (translation_log printed targetLang source))
         (Return (if startsWith targetLang (lit "en") then text
                  else JStr (language_tag targetLang ++ printed)))).
Proof.
  intros T. unfold translateText, translation_log, language_tag.
  rewrite T. simpl.
  destruct (startsWith targetLang (lit "en")); simpl; [reflexivity|].
  now rewrite <- !app_assoc.
Qed.

(** A call of [translateText] on a text the template literal of its
    first line cannot print: it throws before it logs anything. *)
Lemma translateText_unprintable
  (P : Platform) (text : json) (e : Exn) (targetLang : jsstring)
  (sourceLang : option jsstring) :
  template P text = inl e ->
  translateText P text targetLang sourceLang
  = Do (entered_translateText text targetLang
          match sourceLang with Some l => l | None => lit "en-US" end)
      (Throw e).
Proof. intros T. unfold translateText. rewrite T. reflexivity. Qed.

(** What a call of [translateText] returns, if it does. *)
Lemma translateText_returned
  (P : Platform) (text : json) (targetLang : jsstring)
  (sourceLang : option jsstring) :
  returned (translateText P text targetLang sourceLang)
  = match template P text with
    | inl _ => None
    | inr printed =>
        Some (if startsWith targetLang (lit "en") then text
              else JStr (language_tag targetLang ++ printed))
    end.
Proof.
  destruct (template P text) as [e|printed] eqn:T.
  - now rewrite (@translateText_unprintable P text _ targetLang sourceLang T).
  - now rewrite (@translateText_printable P text _ targetLang sourceLang T).
Qed.

Lemma translateText_value
  (P : Platform) (s targetLang : jsstring) (sourceLang : option jsstring) :
  returned (translateText P (JStr s) targetLang sourceLang)
  = Some (JStr (if startsWith targetLang (lit "en") then s
                else language_tag targetLang ++ s)).
Proof.
  rewrite translateText_returned, template_string.
  now destruct (startsWith targetLang (lit "en")).
Qed.

(** [translateText] awaits nothing. *)
Lemma translateText_awaits_nothing
  (P : Platform) (text : json) (targetLang : jsstring)
  (sourceLang : option jsstring) :
  first_await (translateText P text targetLang sourceLang) = None.
Proof.
  destruct (template P text) as [e|printed] eqn:T.
  - now rewrite (@translateText_unprintable P text _ targetLang sourceLang T).
  - now rewrite (@translateText_printable P text _ targetLang sourceLang T).
Qed.

(** C4.  Whatever the source language, [translateText] with a target
    language that starts with [en] returns the text it was given,
    unchanged, and awaits nothing on the way; so translating from
    English to English is the identity.  This holds for every string,
    which is what the function is declared to take and what
    [handleAskAI] passes toward English, and more generally for every
    value the template literal of the log line can print; on the other
    values the function throws at that line, before the test of the
    target language. *)
Theorem translateText_english_target_identity
  (P : Platform) (s targetLang : jsstring) (sourceLang : option jsstring) :
  startsWith targetLang (lit "en") = true ->
  returned (translateText P (JStr s) targetLang sourceLang) = Some (JStr s)
  /\ first_await (translateText P (JStr s) targetLang sourceLang) = None
  /\ forall text : json,
       first_await (translateText P text targetLang sourceLang) = None
       /\ returned (translateText P text targetLang sourceLang)
          = match template P text with
            | inr _ => Some text
            | inl _ => None
            end.
Proof.
  intros H. split; [|split].
  - now rewrite translateText_value, H.
  - apply translateText_awaits_nothing.
  - intros text. split; [apply translateText_awaits_nothing|].
    rewrite translateText_returned, H. reflexivity.
Qed.

Lemma translateText_english_target_identity_witness :
  startsWith (lit "en-US") (lit "en") = true
  /\ returned (translateText example_platform (JStr mujhe_tanaav_hai)
                 (lit "en-US") (Some (lit "en-US")))
     = Some (JStr mujhe_tanaav_hai).
Proof.
  split; [reflexivity|].
  apply (@translateText_english_target_identity example_platform
           mujhe_tanaav_hai (lit "en-US") (Some (lit "en-US"))).
  reflexivity.
Defined.

(** C9.  For a text that is not empty, whatever the two languages,
    [translateText] returns a string that is not empty. *)
Theorem translateText_nonempty
  (P : Platform) (s targetLang : jsstring) (sourceLang : option jsstring) :
  s <> [] ->
  exists s', returned (translateText P (JStr s) targetLang sourceLang)
             = Some (JStr s')
             /\ s' <> [].
Proof.
  intros Hs. rewrite translateText_value.
  destruct (startsWith targetLang (lit "en")).
  - exists s. split; [reflexivity|assumption].
  - eexists. split; [reflexivity|].
    discriminate.
Qed.

Lemma translateText_nonempty_witness :
  mujhe_tanaav_hai <> []
  /\ exists s', returned (translateText example_platform (JStr mujhe_tanaav_hai)
                            (lit "hi-IN") None)
                = Some (JStr s')
                /\ s' <> [].
Proof.
  split; [discriminate|].
  apply (translateText_nonempty example_platform (s := mujhe_tanaav_hai)).
  discriminate.
Defined.

(** ** The entry guard *)

Lemma handleAskAI_blank (P : Platform) (st : State) :
  blank (userInput st) = true -> handleAskAI P st = Return tt.
Proof.
  intros H. unfold handleAskAI, handleAskAI_with.
  now rewrite truthy_trim, H.
Qed.

Lemma handleAskAI_loading (P : Platform) (st : State) :
  isLoading st = true -> handleAskAI P st = Return tt.
Proof.
  intros H. unfold handleAskAI, handleAskAI_with.
  now rewrite H, orb_true_r.
Qed.

(** C5.  A submission whose input is empty or only whitespace returns at
    the guard: the handler performs no effect and awaits nothing, so the
    page is exactly as it was (same history, same flag, nothing
    called, nothing pending). *)
Theorem blank_submission_changes_nothing (P : Platform) (w : World) :
  blank (userInput (ui w)) = true ->
  handleAskAI P (ui w) = Return tt
  /\ step P w AskAI = w
  /\ (isLoading (ui w) = false -> isLoading (ui (step P w AskAI)) = false).
Proof.
  intros H. pose proof (handleAskAI_blank P (ui w) H) as E.
  assert (S : step P w AskAI = w) by (simpl; now rewrite E).
  split; [exact E|]. split; [exact S|]. now rewrite S.
Qed.

Lemma blank_submission_changes_nothing_witness :
  blank (userInput (ui (typed (lit "   ")))) = true
  /\ step example_platform (typed (lit "   ")) AskAI = typed (lit "   ").
Proof.
  split; [reflexivity|].
  apply (blank_submission_changes_nothing example_platform (typed (lit "   "))).
  reflexivity.
Defined.

(** ** One exchange *)

Lemma rejections_app (t u : list Obs) :
  rejections (t ++ u) = rejections t ++ rejections u.
Proof. apply flat_map_app. Qed.

Lemma service_calls_app (t u : list Obs) :
  service_calls (t ++ u) = service_calls t ++ service_calls u.
Proof. apply flat_map_app. Qed.

Lemma caught_app (t u : list Obs) : caught (t ++ u) = caught t ++ caught u.
Proof. apply flat_map_app. Qed.

Lemma or_else_falsy (c : option json) (b : json) :
  truthy c = false -> or_else c b = b.
Proof. destruct c as [x|]; simpl; [|reflexivity]. now intros ->. Qed.

Lemma snoc_all (A : Type) (l t : list A) :
  fold_left (fun t o => t ++ [o]) l t = t ++ l.
Proof.
  revert t. induction l as [|a l IH]; intros t; simpl.
  - now rewrite app_nil_r.
  - rewrite IH. now rewrite <- app_assoc.
Qed.

(** Runs the submission of an idle page symbolically, up to the
    suspension on [fetch]. *)
Ltac submit B :=
  unfold run; simpl fold_left; unfold step;
  unfold handleAskAI, handleAskAI_with;
  rewrite truthy_trim; simpl userInput; rewrite B; simpl.

Ltac settle_fetch_now := unfold settle_fetch; simpl.
Ltac settle_body_now := unfold settle_body; simpl.

(** An exchange, run event by event, comes to the page [after_exchange]
    describes. *)
Lemma exchange_summary (P : Platform) (w : World) (r : Outcome Response) :
  pending w = [] ->
  isLoading (ui w) = false ->
  blank (userInput (ui w)) = false ->
  run P w [AskAI; FetchSettled 0 r; BodyRead 0] = after_exchange P w r.
Proof.
  destruct w as [[input hist loading listening language] rec pend tr].
  simpl. intros -> -> B. submit B.
  unfold after_exchange, appended_reply, outcome, translated_back,
    exchange_observations, attempt, translation_log.
  simpl.
  destruct (startsWith language (lit "en")) eqn:L; simpl;
    settle_fetch_now;
    (destruct r as [resp|e]; simpl;
     [ destruct (ok resp) eqn:O; simpl; settle_body_now;
       (destruct (body resp) as [j|e] eqn:Bd; simpl;
        [ destruct (candidate_text j) as [e|candidate]; simpl;
          rewrite ?L; simpl;
          try match goal with
              | |- context [template P ?x] => destruct (template P x); simpl
              end
        |])
     | settle_body_now ]); rewrite ?O, ?Bd; simpl; reflexivity.
Qed.

Lemma after_exchange_trace (P : Platform) (w : World) (r : Outcome Response) :
  trace (after_exchange P w r)
  = trace w
    ++ exchange_observations P (selectedLanguage (ui w)) (userInput (ui w)) r.
Proof. unfold after_exchange. simpl. apply snoc_all. Qed.

Lemma after_exchange_history (P : Platform) (w : World) (r : Outcome Response) :
  chatHistory (ui (after_exchange P w r))
  = chatHistory (ui w)
    ++ [user_message (userInput (ui w));
        model_message (appended_reply P (selectedLanguage (ui w)) r)].
Proof. unfold after_exchange. simpl. now rewrite <- app_assoc. Qed.

(** The generation step fails exactly when the [try] block throws before
    it has the reply in English. *)
Lemma exchange_fails_attempt (P : Platform) (r : Outcome Response) :
  exchange_fails r = true -> exists e, attempt P r = inl e.
Proof.
  unfold exchange_fails, attempt. destruct r as [response|e]; [|now exists e].
  destruct (body response) as [j|e]; [|intros _; now exists e].
  destruct (ok response); simpl; [|intros _; eauto].
  destruct j; try discriminate. intros _.
  now exists (NullPropertyRead (lit "candidates")).
Qed.

Lemma exchange_succeeds_attempt (P : Platform) (r : Outcome Response) :
  exchange_fails r = false -> exists reply, attempt P r = inr reply.
Proof.
  unfold exchange_fails, attempt. destruct r as [response|e]; [|discriminate].
  destruct (body response) as [j|e];
    [|now rewrite orb_true_r].
  destruct (ok response); simpl; [|discriminate].
  destruct j; try discriminate; intros _; unfold candidate_text; simpl; eauto.
Qed.

(** What an exchange lets see of its errors and of its service calls. *)
Lemma rejections_exchange
  (P : Platform) (language text : jsstring) (r : Outcome Response) :
  rejections (exchange_observations P language text r) = [].
Proof.
  unfold exchange_observations. rewrite !rejections_app.
  destruct (startsWith language (lit "en")); destruct r as [response|e];
    destruct (attempt P _) as [e'|reply]; simpl;
    try destruct (template P reply); reflexivity.
Qed.

Lemma caught_exchange
  (P : Platform) (language text : jsstring) (r : Outcome Response) :
  caught (exchange_observations P language text r)
  = match outcome P language r with
    | inl e => [e]
    | inr _ => []
    end.
Proof.
  unfold exchange_observations, outcome, translated_back.
  rewrite !caught_app.
  destruct (startsWith language (lit "en")); destruct r as [response|e];
    destruct (attempt P _) as [e'|reply]; simpl;
    try destruct (template P reply); reflexivity.
Qed.

Lemma service_calls_exchange
  (P : Platform) (language text : jsstring) (r : Outcome Response) :
  service_calls (exchange_observations P language text r)
  = (if startsWith language (lit "en") then []
     else [translate_call (JStr text) (lit "en-US") language])
    ++ [generate_call (apiUrl P) (generation_request P (JStr text))]
    ++ match attempt P r with
       | inl _ => []
       | inr reply =>
           if startsWith language (lit "en") then []
           else [translate_call reply language (lit "en-US")]
       end.
Proof.
  unfold exchange_observations. rewrite !service_calls_app.
  destruct (startsWith language (lit "en")); destruct r as [response|e];
    destruct (attempt P _) as [e'|reply]; simpl;
    try destruct (template P reply); reflexivity.
Qed.

Lemma appended_reply_failed
  (P : Platform) (language : jsstring) (r : Outcome Response) (e : Exn) :
  outcome P language r = inl e -> appended_reply P language r = JStr apology.
Proof. unfold appended_reply. now intros ->. Qed.

(** C1.  On an idle page, a submission that passes the guard always ends
    the same way, whatever the generation service answers and whatever
    text it replies with.  The translation toward English, which is
    called before the [try] block, is given the text of the text field,
    a string, and returns it: it cannot fail.  Once the promises have
    settled nothing is pending, the flag is false again, no error has
    escaped the handler, and the history has grown by the user's message
    followed by one message of the model.  That message is the fixed
    apology when the generation step has failed, and also when the
    translation of the reply toward the session language has thrown. *)
Theorem exchange_always_ends_consistently
  (P : Platform) (w : World) (r : Outcome Response) :
  pending w = [] ->
  isLoading (ui w) = false ->
  blank (userInput (ui w)) = false ->
  let language := selectedLanguage (ui w) in
  let wf := run P w [AskAI; FetchSettled 0 r; BodyRead 0] in
  returned (translateText P (JStr (userInput (ui w))) (lit "en-US")
              (Some language))
  = Some (JStr (userInput (ui w)))
  /\ pending wf = []
  /\ isLoading (ui wf) = false
  /\ rejections (trace wf) = rejections (trace w)
  /\ exists reply,
       chatHistory (ui wf)
       = chatHistory (ui w)
         ++ [user_message (userInput (ui w)); model_message reply]
       /\ (exchange_fails r = true -> reply = JStr apology)
       /\ (forall response result candidate,
             r = Fulfilled response ->
             ok response = true ->
             body response = Fulfilled result ->
             candidate_text result = inr candidate ->
             startsWith language (lit "en") = false ->
             returned (translateText P (or_else candidate (JStr placeholder))
                         language None) = None ->
             reply = JStr apology).
Proof.
  intros Hp Hl B. cbv zeta.
  rewrite (@exchange_summary P w r Hp Hl B).
  split; [now rewrite translateText_value|].
  split; [reflexivity|]. split; [reflexivity|].
  split.
  { rewrite after_exchange_trace, rejections_app, rejections_exchange.
    apply app_nil_r. }
  exists (appended_reply P (selectedLanguage (ui w)) r).
  split; [apply after_exchange_history|]. split.
  - intros F. destruct (exchange_fails_attempt P r F) as (e & A).
    apply appended_reply_failed with (e := e). unfold outcome. now rewrite A.
  - intros response result candidate -> O Bd C L T.
    rewrite translateText_returned in T.
    destruct (template P (or_else candidate (JStr placeholder))) as [e|printed] eqn:E;
      [|discriminate T].
    apply appended_reply_failed with (e := e).
    unfold outcome, attempt, translated_back. now rewrite Bd, O, C, L, E.
Qed.

Lemma exchange_always_ends_consistently_witness :
  let w := typed_in (lit "hi-IN") mujhe_tanaav_hai in
  let r := Fulfilled (ok_response (reply_with unprintable)) in
  let language := selectedLanguage (ui w) in
  let wf := run example_platform w [AskAI; FetchSettled 0 r; BodyRead 0] in
  returned (translateText example_platform (JStr (userInput (ui w))) (lit "en-US")
              (Some language))
  = Some (JStr (userInput (ui w)))
  /\ pending wf = []
  /\ isLoading (ui wf) = false
  /\ rejections (trace wf) = rejections (trace w)
  /\ exists reply,
       chatHistory (ui wf)
       = chatHistory (ui w)
         ++ [user_message (userInput (ui w)); model_message reply]
       /\ (exchange_fails r = true -> reply = JStr apology)
       /\ (forall response result candidate,
             r = Fulfilled response ->
             ok response = true ->
             body response = Fulfilled result ->
             candidate_text result = inr candidate ->
             startsWith language (lit "en") = false ->
             returned (translateText example_platform
                         (or_else candidate (JStr placeholder))
                         language None) = None ->
             reply = JStr apology).
Proof.
  apply (@exchange_always_ends_consistently example_platform
           (typed_in (lit "hi-IN") mujhe_tanaav_hai)
           (Fulfilled (ok_response (reply_with unprintable))));
    reflexivity.
Defined.

(** The three ways an exchange can fail after the translation toward
    English, in a Hindi session: the network is down; the service
    answers with a status that is not 2xx; the reply holds a text,
    [{"toString": 0}], that the translation toward Hindi cannot print.
    Each time the [catch] block receives the error, the apology is
    appended after the user's message, the flag is cleared and nothing
    escapes the handler. *)
Example failures_end_with_the_apology :
  let ends_with_apology (r : Outcome Response) (e : Exn) :=
    let wf := run example_platform (typed_in (lit "hi-IN") mujhe_tanaav_hai)
                [AskAI; FetchSettled 0 r; BodyRead 0] in
    chatHistory (ui wf)
    = [user_message mujhe_tanaav_hai; model_message (JStr apology)]
    /\ caught (trace wf) = [e]
    /\ rejections (trace wf) = []
    /\ isLoading (ui wf) = false
    /\ pending wf = [] in
  ends_with_apology fetch_failed
    (HostFailure (lit "TypeError") (lit "Failed to fetch"))
  /\ ends_with_apology
       (Fulfilled {| ok := false; statusText := lit "Too Many Requests";
                     body := Fulfilled (JObj []) |})
       (Error (lit "API error: Too Many Requests - {}"))
  /\ ends_with_apology (Fulfilled (ok_response (reply_with unprintable)))
       no_primitive_value.
Proof. repeat split. Qed.

(** The first call of the bridge is made before the [try] block of
    [handleAskAI] is entered: that it cannot fail is a property of
    [translateText] on strings, not of the handler.  With a bridge that
    fails in its place, a failure of that call in a session that is not
    English escapes the handler: the flag stays true and the history
    ends with the user's message. *)
Lemma failing_bridge_before_try_escapes
  (P : Platform) (e : Exn) (w : World) :
  isLoading (ui w) = false ->
  blank (userInput (ui w)) = false ->
  startsWith (selectedLanguage (ui w)) (lit "en") = false ->
  let wf := exec (handleAskAI_with P (failing_bridge e) (ui w)) w in
  pending wf = pending w
  /\ isLoading (ui wf) = true
  /\ rejections (trace wf) = rejections (trace w) ++ [e]
  /\ chatHistory (ui wf)
     = chatHistory (ui w) ++ [user_message (userInput (ui w))].
Proof.
  destruct w as [[input hist loading listening language] rec pend tr].
  simpl. intros -> B L.
  unfold handleAskAI_with. rewrite truthy_trim. simpl userInput.
  rewrite B. simpl. rewrite L. simpl.
  repeat split. now rewrite rejections_app.
Qed.

(** [s.includes(part)] decides [contains s part]. *)
Lemma startsWith_app (part post : jsstring) :
  startsWith (part ++ post) part = true.
Proof.
  induction part as [|c part IH]; simpl; [now destruct post|].
  now rewrite N.eqb_refl, IH.
Qed.

Lemma includes_head (s part : jsstring) :
  startsWith s part = true -> includes s part = true.
Proof.
  destruct s as [|c s].
  - destruct part; [reflexivity|discriminate].
  - intros H. change (startsWith (c :: s) part || includes s part = true).
    now rewrite H.
Qed.

Lemma contains_includes (s part : jsstring) :
  contains s part -> includes s part = true.
Proof.
  intros (pre & post & ->).
  induction pre as [|c pre IH].
  - apply includes_head. exact (startsWith_app part post).
  - change (startsWith (c :: pre ++ part ++ post) part
            || includes (pre ++ part ++ post) part = true).
    rewrite IH. apply orb_true_r.
Qed.

(** C7, as the code has it.  When the generation service answers with a
    status that is not 2xx, the body of the response is read before
    anything is thrown.  If it parses, to [errorData], the [try] block
    throws an [Error] whose message is [API error: ], the status text,
    [ - ] and [JSON.stringify(errorData)]: the one error the [catch]
    block receives carries both the status text and the structured error
    body.  If it does not parse, what the [catch] block receives is the
    rejection of [response.json()] as it is.  Either way the apology is
    appended. *)
Theorem provider_error_message_carries_body
  (P : Platform) (w : World) (response : Response) :
  pending w = [] ->
  isLoading (ui w) = false ->
  blank (userInput (ui w)) = false ->
  ok response = false ->
  let wf := run P w [AskAI; FetchSettled 0 (Fulfilled response); BodyRead 0] in
  chatHistory (ui wf)
  = chatHistory (ui w)
    ++ [user_message (userInput (ui w)); model_message (JStr apology)]
  /\ match body response with
     | Fulfilled errorData =>
         let message := lit "API error: " ++ statusText response ++ lit " - "
                        ++ JSON_stringify P errorData in
         caught (trace wf) = caught (trace w) ++ [Error message]
         /\ contains message (statusText response)
         /\ contains message (JSON_stringify P errorData)
     | RejectedWith e => caught (trace wf) = caught (trace w) ++ [e]
     end.
Proof.
  intros Hp Hl B O. cbv zeta.
  rewrite (@exchange_summary P w (Fulfilled response) Hp Hl B).
  rewrite after_exchange_history, after_exchange_trace, caught_app,
    caught_exchange.
  unfold appended_reply, outcome, attempt. rewrite O.
  destruct (body response) as [errorData|e].
  - split; [reflexivity|]. split; [reflexivity|]. split.
    + exists (lit "API error: "), (lit " - " ++ JSON_stringify P errorData).
      reflexivity.
    + exists (lit "API error: " ++ statusText response ++ lit " - "), [].
      now rewrite app_nil_r, <- !app_assoc.
  - split; reflexivity.
Qed.

Lemma provider_error_message_carries_body_witness :
  let response := {| ok := false; statusText := lit "Too Many Requests";
                     body := Fulfilled (JObj []) |} in
  let w := typed (lit "How do I sleep better?") in
  let wf := run example_platform w
              [AskAI; FetchSettled 0 (Fulfilled response); BodyRead 0] in
  caught (trace wf)
  = caught (trace w) ++ [Error (lit "API error: Too Many Requests - {}")].
Proof.
  apply (@provider_error_message_carries_body example_platform
           (typed (lit "How do I sleep better?"))
           {| ok := false; statusText := lit "Too Many Requests";
              body := Fulfilled (JObj []) |}
           eq_refl eq_refl eq_refl eq_refl).
Defined.

(** C7 as stated fails on a response that is not 2xx and whose body is
    not JSON, such as the HTML page of a gateway: [response.json()]
    rejects at the line that reads the error body, the [throw] of the
    next line is never reached, and the [catch] block receives the bare
    SyntaxError, whose message holds neither the status text nor any
    error body. *)
Lemma unparsable_error_body_is_a_bare_failure :
  let syntax_error :=
    HostFailure (lit "SyntaxError")
      (lit "Unexpected token < in JSON at position 0") in
  let response := {| ok := false; statusText := lit "Bad Gateway";
                     body := RejectedWith syntax_error |} in
  let wf := run example_platform (typed (lit "How do I sleep better?"))
              [AskAI; FetchSettled 0 (Fulfilled response); BodyRead 0] in
  caught (trace wf) = [syntax_error]
  /\ ~ contains (lit "Unexpected token < in JSON at position 0")
         (statusText response)
  /\ chatHistory (ui wf)
     = [user_message (lit "How do I sleep better?");
        model_message (JStr apology)].
Proof.
  split; [reflexivity|]. split; [|reflexivity].
  intros C. apply contains_includes in C. discriminate C.
Qed.

(** C6, as the code has it.  In a session whose language does not start
    with [en], an exchange calls the bridge toward English once, then
    the generation service, and then, when the generation step has
    succeeded, the bridge toward the session language once; when it has
    failed the bridge is not called again.  These are all its service
    calls, in that order.  An exchange of an English session calls the
    generation service and never the bridge. *)
Theorem exchange_service_calls
  (P : Platform) (w : World) (r : Outcome Response) :
  pending w = [] ->
  isLoading (ui w) = false ->
  blank (userInput (ui w)) = false ->
  let wf := run P w [AskAI; FetchSettled 0 r; BodyRead 0] in
  let language := selectedLanguage (ui w) in
  let query := JStr (userInput (ui w)) in
  let generate := generate_call (apiUrl P) (generation_request P query) in
  if startsWith language (lit "en")
  then service_calls (trace wf) = service_calls (trace w) ++ [generate]
  else exists back,
         service_calls (trace wf)
         = service_calls (trace w)
           ++ [translate_call query (lit "en-US") language; generate] ++ back
         /\ (exchange_fails r = true -> back = [])
         /\ (exchange_fails r = false ->
             exists reply, back = [translate_call reply language (lit "en-US")]).
Proof.
  intros Hp Hl B. cbv zeta.
  rewrite (@exchange_summary P w r Hp Hl B).
  rewrite after_exchange_trace, service_calls_app, service_calls_exchange.
  destruct (startsWith (selectedLanguage (ui w)) (lit "en")).
  - now destruct (attempt P r).
  - eexists. split; [reflexivity|]. split; intros F.
    + destruct (exchange_fails_attempt P r F) as (e & ->). reflexivity.
    + destruct (exchange_succeeds_attempt P r F) as (reply & ->).
      now exists reply.
Qed.

Lemma exchange_service_calls_witness :
  let w := typed (lit "How do I sleep better?") in
  let wf := run example_platform w
              [AskAI; FetchSettled 0 (Fulfilled (ok_response (JObj []))); BodyRead 0] in
  service_calls (trace wf)
  = service_calls (trace w)
    ++ [generate_call (apiUrl example_platform)
          (generation_request example_platform (JStr (userInput (ui w))))].
Proof.
  apply (@exchange_service_calls example_platform
           (typed (lit "How do I sleep better?"))
           (Fulfilled (ok_response (JObj []))) eq_refl eq_refl eq_refl).
Defined.

(** The scenario of the Hindi session: the bridge toward English, the
    generation service, the bridge toward Hindi. *)
Example hindi_exchange_service_calls :
  let reply := JStr (lit "Try a warm oil massage.") in
  let wf := run example_platform (typed_in (lit "hi-IN") mujhe_tanaav_hai)
              [AskAI; FetchSettled 0 (Fulfilled (ok_response (reply_with reply)));
               BodyRead 0] in
  service_calls (trace wf)
  = [translate_call (JStr mujhe_tanaav_hai) (lit "en-US") (lit "hi-IN");
     generate_call (apiUrl example_platform)
       (generation_request example_platform (JStr mujhe_tanaav_hai));
     translate_call reply (lit "hi-IN") (lit "en-US")].
Proof. reflexivity. Qed.

(** C6 as stated fails on an exchange whose generation call fails: in a
    Hindi session with the network down the exchange runs to its end
    (flag cleared, nothing pending) having called the bridge toward
    English and the generation service, and never the bridge toward
    Hindi. *)
Lemma failed_exchange_never_translates_back :
  let wf := run example_platform (typed_in (lit "hi-IN") mujhe_tanaav_hai)
              [AskAI; FetchSettled 0 fetch_failed] in
  service_calls (trace wf)
  = [translate_call (JStr mujhe_tanaav_hai) (lit "en-US") (lit "hi-IN");
     generate_call (apiUrl example_platform)
       (generation_request example_platform (JStr mujhe_tanaav_hai))]
  /\ isLoading (ui wf) = false
  /\ pending wf = []
  /\ chatHistory (ui wf)
     = [user_message mujhe_tanaav_hai; model_message (JStr apology)].
Proof. repeat split. Qed.

(** C10, as the code has it.  When the body of a 2xx response parses to
    a value other than null in which
    [candidates?.[0]?.content?.parts?.[0]?.text] is undefined or falsy,
    the reply in English is the placeholder; an English session appends
    it as it is, any other session passes it to [translateText] toward
    the session language and appends what that returns. *)
Theorem empty_response_placeholder_is_translated
  (P : Platform) (w : World) (response : Response) (result : json)
  (candidate : option json) :
  pending w = [] ->
  isLoading (ui w) = false ->
  blank (userInput (ui w)) = false ->
  ok response = true ->
  body response = Fulfilled result ->
  candidate_text result = inr candidate ->
  truthy candidate = false ->
  let wf := run P w [AskAI; FetchSettled 0 (Fulfilled response); BodyRead 0] in
  let language := selectedLanguage (ui w) in
  exists reply,
    chatHistory (ui wf)
    = chatHistory (ui w)
      ++ [user_message (userInput (ui w)); model_message reply]
    /\ caught (trace wf) = caught (trace w)
    /\ if startsWith language (lit "en")
       then reply = JStr placeholder
       else returned (translateText P (JStr placeholder) language None)
            = Some reply
            /\ In (translate_call (JStr placeholder) language (lit "en-US"))
                  (service_calls (trace wf)).
Proof.
  intros Hp Hl B O Bd C F. cbv zeta.
  rewrite (@exchange_summary P w (Fulfilled response) Hp Hl B).
  assert (A : attempt P (Fulfilled response) = inr (JStr placeholder)).
  { unfold attempt. rewrite Bd, O, C. now rewrite or_else_falsy. }
  exists (appended_reply P (selectedLanguage (ui w)) (Fulfilled response)).
  split; [apply after_exchange_history|].
  rewrite after_exchange_trace, caught_app, caught_exchange,
    service_calls_app, service_calls_exchange.
  unfold appended_reply, outcome, translated_back. rewrite A.
  destruct (startsWith (selectedLanguage (ui w)) (lit "en")) eqn:L.
  - split; [apply app_nil_r|reflexivity].
  - rewrite template_string. split; [apply app_nil_r|]. split.
    + rewrite translateText_value, L. unfold language_tag.
      now rewrite <- !app_assoc.
    + rewrite !in_app_iff. simpl. auto 10.
Qed.

Lemma empty_response_placeholder_is_translated_witness :
  let w := typed_in (lit "hi-IN") mujhe_tanaav_hai in
  let wf := run example_platform w
              [AskAI; FetchSettled 0 (Fulfilled (ok_response (JObj []))); BodyRead 0] in
  exists reply,
    chatHistory (ui wf)
    = chatHistory (ui w)
      ++ [user_message (userInput (ui w)); model_message reply]
    /\ caught (trace wf) = caught (trace w)
    /\ returned (translateText example_platform (JStr placeholder) (lit "hi-IN") None)
       = Some reply
    /\ In (translate_call (JStr placeholder) (lit "hi-IN") (lit "en-US"))
          (service_calls (trace wf)).
Proof.
  apply (empty_response_placeholder_is_translated example_platform
           (typed_in (lit "hi-IN") mujhe_tanaav_hai)
           (ok_response (JObj [])) (candidate := None)
           eq_refl eq_refl eq_refl eq_refl eq_refl eq_refl eq_refl).
Defined.

(** C10 as stated fails on a body that parses to null: the response
    parses and holds no text, yet reading [result.candidates] throws,
    the [catch] block receives the TypeError, and the message appended
    is the apology, which is not passed to the bridge. *)
Lemma null_response_gets_the_apology :
  let wf := run example_platform (typed_in (lit "hi-IN") mujhe_tanaav_hai)
              [AskAI; FetchSettled 0 (Fulfilled (ok_response JNull)); BodyRead 0] in
  chatHistory (ui wf)
  = [user_message mujhe_tanaav_hai; model_message (JStr apology)]
  /\ caught (trace wf) = [NullPropertyRead (lit "candidates")]
  /\ service_calls (trace wf)
     = [translate_call (JStr mujhe_tanaav_hai) (lit "en-US") (lit "hi-IN");
        generate_call (apiUrl example_platform)
          (generation_request example_platform (JStr mujhe_tanaav_hai))].
Proof. repeat split. Qed.

(** ** The exchange and the rest of the page *)

Section Session.

Variable P : Platform.

Lemma quiet_core (a : Action) (w : World) :
  quiet a = true -> core (apply_action a w) = core w.
Proof. destruct a; simpl; intros Q; try discriminate Q; reflexivity. Qed.

Lemma apply_action_core_congr (a : Action) (w v : World) :
  core w = core v -> core (apply_action a w) = core (apply_action a v).
Proof.
  unfold core. intros E. injection E as E1 E2 E3.
  destruct a; simpl; congruence.
Qed.

Lemma exec_core_congr (m : Async unit) :
  forall w v, core w = core v -> core (exec m w) = core (exec m v).
Proof.
  induction m as [a|e|a k IH|c k IH]; intros w v E; simpl.
  - exact E.
  - unfold core in *. simpl. exact E.
  - apply IH. now apply apply_action_core_congr.
  - unfold core in *. simpl. injection E as E1 E2 E3. congruence.
Qed.

Lemma settle_core_congr (e : Event) (w v : World) :
  bystander e = false ->
  core w = core v -> core (step P w e) = core (step P v e).
Proof.
  intros NB E. assert (Ep : pending w = pending v) by (unfold core in E; congruence).
  destruct e; try discriminate NB; simpl.
  - unfold settle_fetch. rewrite <- Ep.
    destruct (nth_error (pending w) i) as [[c k]|]; [|exact E].
    destruct c; [|exact E].
    apply exec_core_congr. unfold core in *. simpl. congruence.
  - unfold settle_body. rewrite <- Ep.
    destruct (nth_error (pending w) i) as [[c k]|]; [|exact E].
    destruct c; [exact E|].
    apply exec_core_congr. unfold core in *. simpl. congruence.
Qed.

(** Typing, picking a language and the voice events do not touch an
    exchange. *)
Lemma onlooker_core (w : World) (e : Event) :
  bystander e = true -> e <> AskAI -> core (step P w e) = core w.
Proof.
  intros B N. destruct e; try discriminate B; try congruence; simpl;
    try reflexivity.
  - unfold handleToggleListening.
    destruct (recognition w) as [r|]; [|reflexivity].
    destruct (isListening (ui w)); [reflexivity|].
    destruct start_throws; reflexivity.
  - destruct (recognition w) as [[l [c|]]|]; reflexivity.
  - destruct (recognition w) as [[l [c|]]|]; [|reflexivity..].
    unfold onerror. destruct (jsstring_eqb error _); reflexivity.
  - destruct (recognition w) as [[l [c|]]|]; reflexivity.
Qed.

Lemma onlookers_core (events : list Event) :
  forall w, forallb onlooker events = true -> core (run P w events) = core w.
Proof.
  induction events as [|e events IH]; intros w B; [reflexivity|].
  simpl in B. apply andb_true_iff in B as [Be Bs].
  change (core (run P (step P w e) events) = core w).
  rewrite IH by exact Bs.
  apply onlooker_core; destruct e; try discriminate Be; try reflexivity;
    discriminate.
Qed.

Lemma bystander_core (w : World) (e : Event) :
  bystander e = true -> isLoading (ui w) = true -> core (step P w e) = core w.
Proof.
  intros B L. destruct e; try (apply onlooker_core; [exact B|discriminate]).
  simpl. now rewrite handleAskAI_loading.
Qed.

Lemma bystanders_core (events : list Event) :
  forall w, forallb bystander events = true -> isLoading (ui w) = true ->
            core (run P w events) = core w.
Proof.
  induction events as [|e events IH]; intros w B L; [reflexivity|].
  simpl in B. apply andb_true_iff in B as [Be Bs].
  pose proof (bystander_core w e Be L) as E.
  change (core (run P (step P w e) events) = core w).
  rewrite IH; [exact E|exact Bs|].
  unfold core in E. congruence.
Qed.

Lemma run_app (w : World) (a b : list Event) :
  run P w (a ++ b) = run P (run P w a) b.
Proof. apply fold_left_app. Qed.

(** What happens while a request is out or a body is read does not
    change what the exchange does. *)
Lemma bystanders_erased (w : World) (r : Outcome Response) (n1 n2 : list Event) :
  isLoading (ui w) = true ->
  isLoading (ui (step P w (FetchSettled 0 r))) = true ->
  forallb bystander n1 = true ->
  forallb bystander n2 = true ->
  core (run P w (n1 ++ [FetchSettled 0 r] ++ n2 ++ [BodyRead 0]))
  = core (run P w [FetchSettled 0 r; BodyRead 0]).
Proof.
  intros L1 L2 B1 B2.
  rewrite !run_app.
  set (w1 := run P w n1).
  assert (E1 : core w1 = core w) by now apply bystanders_core.
  assert (E2 : core (run P w1 [FetchSettled 0 r]) = core (step P w (FetchSettled 0 r)))
    by (apply (settle_core_congr (FetchSettled 0 r)); [reflexivity|exact E1]).
  set (w2 := run P w1 [FetchSettled 0 r]) in *.
  assert (E3 : core (run P w2 n2) = core w2).
  { apply bystanders_core; [exact B2|]. unfold core in E2. congruence. }
  apply (settle_core_congr (BodyRead 0)); [reflexivity|].
  rewrite E3. exact E2.
Qed.

(** *** The handler between submission and its last append *)

Ltac finishing :=
  repeat first
    [ apply finishing_append; reflexivity
    | apply finishing_quiet; [reflexivity|]
    | apply finishing_await; intros [?|?]; simpl
    | match goal with
      | |- context [candidate_text ?j] => destruct (candidate_text j); simpl
      | |- context [template ?p ?v] => destruct (template p v); simpl
      | |- context [if ?b then _ else _] => destruct b; simpl
      end ].

Lemma submission_is_finishing (st : State) :
  isLoading st = false ->
  blank (userInput st) = false ->
  exists rest,
    handleAskAI P st
    = Do (setIsLoading true)
        (Do (setChatHistory (chatHistory st ++ [user_message (userInput st)]))
           (Do (setUserInput []) rest))
    /\ Finishing (chatHistory st ++ [user_message (userInput st)]) rest.
Proof.
  intros L B. unfold handleAskAI, handleAskAI_with.
  rewrite truthy_trim, B, L. simpl.
  destruct (startsWith (selectedLanguage st) (lit "en")); simpl;
    (eexists; split; [reflexivity|]); finishing.
Qed.

Lemma exec_finishing (h : list ChatMessage) (m : Async unit) :
  Finishing h m ->
  forall w,
    chatHistory (ui w) = h -> isLoading (ui w) = true -> pending w = [] ->
    (exists reply, role reply = model
                   /\ core (exec m w) = (h ++ [reply], false, []))
    \/ (exists s, core (exec m w) = (h, true, [s])
                  /\ forall r, Finishing h (resume s r)).
Proof.
  induction 1 as [reply R|a k Q F IH|c k F IH]; intros w Hh Hl Hp.
  - left. exists reply. split; [exact R|]. unfold core. simpl. now rewrite Hp.
  - simpl. pose proof (quiet_core a w Q) as E. unfold core in E.
    apply IH; congruence.
  - right. exists {| awaited := c; resume := k |}.
    split; [|exact F]. unfold core. simpl. now rewrite Hp, Hh, Hl.
Qed.

Lemma consistent_core (w v : World) :
  core w = core v -> consistent w -> consistent v.
Proof.
  unfold core, consistent. intros E. injection E as E1 E2 E3.
  now rewrite E1, E2, E3.
Qed.

Lemma exchanges_snoc (h : list ChatMessage) (u m : ChatMessage) :
  Exchanges h -> role u = user -> role m = model ->
  Exchanges ((h ++ [u]) ++ [m]).
Proof. intros. rewrite <- app_assoc. now apply exchanges_more. Qed.

(** Resuming the one suspended handler of a consistent page. *)
Lemma resume_consistent (w : World) (s : Suspended)
  (r : Outcome (Answer (awaited s))) :
  consistent w -> pending w = [s] ->
  let w' := exec (resume s r) (with_pending [] w) in
  consistent w'
  /\ ((isLoading (ui w') = true /\ chatHistory (ui w') = chatHistory (ui w))
      \/ (isLoading (ui w') = false /\ pending w' = []
          /\ exists reply, role reply = model
                           /\ chatHistory (ui w') = chatHistory (ui w) ++ [reply])).
Proof.
  unfold consistent. intros C Hp. rewrite Hp in C.
  destruct C as (L & (h & u & Hh & Ex & Ru) & F).
  destruct (@exec_finishing _ _ (F r) (with_pending [] w) eq_refl L eq_refl)
    as [(reply & R & E)|(s' & E & F')];
    unfold core in E; injection E as E1 E2 E3; cbv zeta; rewrite E1, E2, E3.
  - split.
    + split; [reflexivity|]. rewrite Hh. now apply exchanges_snoc.
    + right. repeat split. now exists reply.
  - split.
    + split; [reflexivity|]. split; [now exists h, u | exact F'].
    + left. split; reflexivity.
Qed.

(** What one event does to a consistent page. *)
Lemma step_consistent (w : World) (e : Event) :
  consistent w ->
  consistent (step P w e)
  /\ (isLoading (ui w) = true ->
      (isLoading (ui (step P w e)) = true
       /\ chatHistory (ui (step P w e)) = chatHistory (ui w))
      \/ (isLoading (ui (step P w e)) = false /\ pending (step P w e) = []
          /\ exists reply, role reply = model
                           /\ chatHistory (ui (step P w e))
                              = chatHistory (ui w) ++ [reply])).
Proof.
  intros C.
  assert (Same : forall v, core v = core w ->
            consistent v
            /\ (isLoading (ui w) = true ->
                (isLoading (ui v) = true /\ chatHistory (ui v) = chatHistory (ui w))
                \/ (isLoading (ui v) = false /\ pending v = []
                    /\ exists reply, role reply = model
                         /\ chatHistory (ui v) = chatHistory (ui w) ++ [reply]))).
  { intros v E. split; [apply (@consistent_core w v); [symmetry; exact E|exact C]|].
    intros L. left. unfold core in E. split; congruence. }
  destruct e;
    try (apply Same, onlooker_core; [reflexivity|discriminate]).
  - (* AskAI *)
    destruct (isLoading (ui w)) eqn:L.
    { apply Same. simpl. now rewrite handleAskAI_loading. }
    destruct (blank (userInput (ui w))) eqn:B.
    { apply Same. simpl. now rewrite handleAskAI_blank. }
    split; [|discriminate].
    destruct (submission_is_finishing (ui w) L B) as (rest & E & F).
    assert (Hp : pending w = []).
    { unfold consistent in C. destruct (pending w) as [|s [|s' l]];
        [reflexivity| |contradiction].
      destruct C as (L' & _). congruence. }
    simpl. rewrite E. simpl.
    match goal with |- consistent (exec rest ?v) => set (w0 := v) end.
    unfold consistent in C. rewrite Hp in C. destruct C as (_ & Ex).
    destruct (@exec_finishing _ _ F w0 eq_refl eq_refl Hp)
      as [(reply & R & E')|(s & E' & F')];
      unfold core in E'; injection E' as E1 E2 E3;
      unfold consistent; rewrite E1, E2, E3.
    + split; [reflexivity|]. now apply exchanges_snoc.
    + split; [reflexivity|]. split; [|exact F'].
      now exists (chatHistory (ui w)), (user_message (userInput (ui w))).
  - (* FetchSettled *)
    simpl. unfold settle_fetch.
    assert (C' := C). unfold consistent in C'.
    destruct (pending w) as [|s [|s' l]] eqn:Hp; [| |contradiction].
    { destruct i; simpl; now apply Same. }
    destruct i as [|i]; simpl; [| destruct i; now apply Same].
    destruct s as [c k]. destruct c; [|now apply Same].
    destruct (@resume_consistent w {| awaited := fetch url init; resume := k |} r C Hp)
      as [C2 D].
    split; [exact C2|]. intros _. exact D.
  - (* BodyRead *)
    simpl. unfold settle_body.
    assert (C' := C). unfold consistent in C'.
    destruct (pending w) as [|s [|s' l]] eqn:Hp; [| |contradiction].
    { destruct i; simpl; now apply Same. }
    destruct i as [|i]; simpl; [| destruct i; now apply Same].
    destruct s as [c k]. destruct c; [now apply Same|].
    destruct (@resume_consistent w {| awaited := response_json response; resume := k |}
                (body response) C Hp) as [C2 D].
    split; [exact C2|]. intros _. exact D.
Qed.

Lemma mounted_consistent (supported : bool) : consistent (mounted supported).
Proof. split; [reflexivity|constructor]. Qed.

Lemma run_consistent (events : list Event) :
  forall w, consistent w -> consistent (run P w events).
Proof.
  induction events as [|e events IH]; intros w C; [exact C|].
  change (consistent (run P (step P w e) events)).
  apply IH. now apply step_consistent.
Qed.

Lemma reachable_consistent (w : World) : reachable P w -> consistent w.
Proof.
  intros (supported & events & ->).
  apply run_consistent, mounted_consistent.
Qed.

End Session.

(** ** Sessions *)

(** C3.  On every page the component can reach: at most one handler is
    suspended, and one is exactly when the flag is true; while the flag
    is true a submission leaves the page as it is (no message, no call,
    nothing new pending); a submission that passes the guard sets the
    flag, appends the user's message and suspends one handler; and
    whatever happens while the flag is true either leaves the flag true
    and the history alone, or clears the flag in the very step that
    appends the message of the model that ends the exchange. *)
Theorem in_flight_flag_guards_the_exchange (P : Platform) (w : World) :
  reachable P w ->
  length (pending w) <= 1
  /\ (isLoading (ui w) = true <-> pending w <> [])
  /\ (isLoading (ui w) = true -> step P w AskAI = w)
  /\ (isLoading (ui w) = false -> blank (userInput (ui w)) = false ->
      isLoading (ui (step P w AskAI)) = true
      /\ chatHistory (ui (step P w AskAI))
         = chatHistory (ui w) ++ [user_message (userInput (ui w))]
      /\ length (pending (step P w AskAI)) = 1)
  /\ (forall e, isLoading (ui w) = true ->
      (isLoading (ui (step P w e)) = true
       /\ chatHistory (ui (step P w e)) = chatHistory (ui w))
      \/ (isLoading (ui (step P w e)) = false /\ pending (step P w e) = []
          /\ exists reply, role reply = model
                           /\ chatHistory (ui (step P w e))
                              = chatHistory (ui w) ++ [reply])).
Proof.
  intros R. pose proof (reachable_consistent R) as C.
  assert (Shape : (isLoading (ui w) = false /\ pending w = [])
                  \/ (isLoading (ui w) = true /\ exists s, pending w = [s])).
  { unfold consistent in C. destruct (pending w) as [|s [|s' l]];
      [left|right|contradiction].
    - split; [apply C|reflexivity].
    - split; [apply C|now exists s]. }
  split; [|split; [|split; [|split]]].
  - destruct Shape as [(_ & ->)|(_ & s & ->)]; simpl; lia.
  - destruct Shape as [(L & Hp)|(L & s & Hp)]; rewrite L, Hp;
      split; congruence.
  - intros L. simpl. now rewrite handleAskAI_loading.
  - intros L B.
    destruct Shape as [(_ & Hp)|(L' & _)]; [|congruence].
    destruct w as [[input hist loading listening language] rec pend tr].
    simpl in *. subst.
    unfold handleAskAI, handleAskAI_with. rewrite truthy_trim. simpl userInput.
    rewrite B. simpl.
    destruct (startsWith language (lit "en")); simpl; repeat split.
  - intros e L. now apply (@step_consistent P w e C).
Qed.

Lemma in_flight_flag_guards_the_exchange_witness :
  let w := step example_platform (typed (lit "How do I sleep better?")) AskAI in
  reachable example_platform w
  /\ isLoading (ui w) = true
  /\ step example_platform w AskAI = w.
Proof.
  assert (R : reachable example_platform
                (step example_platform (typed (lit "How do I sleep better?")) AskAI)).
  { exists true, [ChangeInput (lit "How do I sleep better?"); AskAI]. reflexivity. }
  split; [exact R|]. split; [reflexivity|].
  apply (in_flight_flag_guards_the_exchange R). reflexivity.
Defined.

(** ** The outcome of an exchange *)

(** An accepted submission sets the flag, appends the user's message,
    empties the text field and leaves the rest of the state alone. *)
Lemma submission_effect (P : Platform) (w : World) :
  isLoading (ui w) = false ->
  blank (userInput (ui w)) = false ->
  let w' := step P w AskAI in
  isLoading (ui w') = true
  /\ chatHistory (ui w') = chatHistory (ui w) ++ [user_message (userInput (ui w))]
  /\ userInput (ui w') = []
  /\ isListening (ui w') = isListening (ui w)
  /\ selectedLanguage (ui w') = selectedLanguage (ui w)
  /\ recognition w' = recognition w
  /\ length (pending w') = S (length (pending w)).
Proof.
  destruct w as [[input hist loading listening language] rec pend tr].
  simpl. intros -> B.
  unfold handleAskAI, handleAskAI_with. rewrite truthy_trim. simpl userInput.
  rewrite B. simpl.
  destruct (startsWith language (lit "en")); simpl; repeat split;
    rewrite length_app; simpl; lia.
Qed.

(** When the request is answered the exchange is still in flight: the
    body has yet to be read. *)
Lemma answered_request_keeps_loading
  (P : Platform) (w : World) (response : Response) :
  pending w = [] ->
  isLoading (ui w) = false ->
  blank (userInput (ui w)) = false ->
  isLoading (ui (run P w [AskAI; FetchSettled 0 (Fulfilled response)])) = true.
Proof.
  destruct w as [[input hist loading listening language] rec pend tr].
  simpl. intros -> -> B. submit B.
  destruct (startsWith language (lit "en")); simpl; settle_fetch_now;
    destruct (ok response); reflexivity.
Qed.

(** The answer of a successful exchange. *)
Lemma exchange_succeeds_inv (response : Response) :
  exchange_fails (Fulfilled response) = false ->
  ok response = true
  /\ exists result, body response = Fulfilled result /\ result <> JNull.
Proof.
  simpl. intros F. apply orb_false_iff in F as [O F].
  apply negb_false_iff in O. split; [exact O|].
  destruct (body response) as [j|e]; [|discriminate F].
  exists j. split; [reflexivity|]. intros ->. discriminate F.
Qed.

(** A successful exchange with nothing happening meanwhile. *)
Lemma successful_exchange_plain
  (P : Platform) (w : World) (tag text : jsstring) (response : Response) :
  pending w = [] ->
  isLoading (ui w) = false ->
  blank text = false ->
  exchange_fails (Fulfilled response) = false ->
  let wA := run P w [SelectLanguage tag; ChangeInput text; AskAI] in
  isLoading (ui wA) = true
  /\ isLoading (ui (step P wA (FetchSettled 0 (Fulfilled response)))) = true
  /\ exists reply,
       core (run P wA [FetchSettled 0 (Fulfilled response); BodyRead 0])
       = (chatHistory (ui w) ++ [user_message text; model_message reply],
          false, []).
Proof.
  intros Hp Hl B F.
  set (w0 := run P w [SelectLanguage tag; ChangeInput text]).
  assert (Hp0 : pending w0 = []) by exact Hp.
  assert (Hl0 : isLoading (ui w0) = false) by exact Hl.
  assert (B0 : blank (userInput (ui w0)) = false) by exact B.
  change (run P w [SelectLanguage tag; ChangeInput text; AskAI])
    with (step P w0 AskAI).
  cbv zeta. split; [|split].
  - apply (submission_effect P w0 Hl0 B0).
  - exact (@answered_request_keeps_loading P w0 response Hp0 Hl0 B0).
  - exists (appended_reply P tag (Fulfilled response)).
    change (run P (step P w0 AskAI) [FetchSettled 0 (Fulfilled response); BodyRead 0])
      with (run P w0 [AskAI; FetchSettled 0 (Fulfilled response); BodyRead 0]).
    rewrite (@exchange_summary P w0 (Fulfilled response) Hp0 Hl0 B0).
    unfold core, after_exchange. simpl. now rewrite <- app_assoc.
Qed.

Lemma successful_exchange_core (P : Platform) (w : World) (x : Exchange) :
  pending w = [] ->
  isLoading (ui w) = false ->
  successful x = true ->
  exists reply,
    core (run P w (events_of x))
    = (chatHistory (ui w) ++ [user_message (input x); model_message reply],
       false, []).
Proof.
  intros Hp L S. unfold successful in S.
  apply andb_true_iff in S as [S B2]. apply andb_true_iff in S as [S B1].
  apply andb_true_iff in S as [S B0]. apply andb_true_iff in S as [B F].
  apply negb_true_iff in B. apply negb_true_iff in F.
  unfold events_of. rewrite run_app.
  pose proof (onlookers_core P (beforehand x) w B0) as E0.
  set (w0 := run P w (beforehand x)) in *.
  unfold core in E0.
  apply pair_equal_spec in E0 as [E0 Hp0]. apply pair_equal_spec in E0 as [Hh0 L0].
  rewrite Hp in Hp0. rewrite L in L0. rewrite <- Hh0.
  destruct (@successful_exchange_plain P w0 (language x) (input x) (answer x)
              Hp0 L0 B F) as (L1 & L2 & reply & E).
  exists reply. rewrite run_app.
  rewrite bystanders_erased; assumption.
Qed.

Lemma successful_exchanges_from (P : Platform) (xs : list Exchange) :
  forall w,
    pending w = [] ->
    isLoading (ui w) = false ->
    forallb successful xs = true ->
    let wf := run P w (flat_map events_of xs) in
    pending wf = [] /\ isLoading (ui wf) = false
    /\ exists replies,
         length replies = length xs
         /\ chatHistory (ui wf)
            = chatHistory (ui w) ++ flat_map exchange_messages (combine xs replies).
Proof.
  induction xs as [|x xs IH]; intros w Hp L S.
  - simpl. repeat split; try assumption.
    exists []. split; [reflexivity|]. now rewrite app_nil_r.
  - simpl in S. apply andb_true_iff in S as [Sx Sxs].
    destruct (@successful_exchange_core P w x Hp L Sx) as (reply & E).
    unfold core in E.
    apply pair_equal_spec in E as [E E3]. apply pair_equal_spec in E as [E1 E2].
    cbv zeta.
    change (flat_map events_of (x :: xs))
      with (events_of x ++ flat_map events_of xs).
    rewrite run_app.
    destruct (IH (run P w (events_of x)) E3 E2 Sxs) as (Hp' & L' & replies & Hl & Hh).
    split; [exact Hp'|]. split; [exact L'|].
    exists (reply :: replies). split; [simpl; now rewrite Hl|].
    rewrite Hh, E1. simpl. now rewrite <- app_assoc.
Qed.

(** C2.  In a session that starts with an empty history, after [N]
    exchanges that pass the guard and get a reply, whatever else the
    user and the recognition service do before each and while each is in
    flight (further submissions included), the history has [2N] messages
    whose roles are user, model, user, model, ...; it is, exchange by
    exchange in the order of submission, the user's message immediately
    followed by the reply to it. *)
Theorem history_after_successful_exchanges
  (P : Platform) (supported : bool) (xs : list Exchange) :
  forallb successful xs = true ->
  let wf := run P (mounted supported) (flat_map events_of xs) in
  length (chatHistory (ui wf)) = 2 * length xs
  /\ map role (chatHistory (ui wf)) = flat_map (fun _ => [user; model]) xs
  /\ (exists replies,
        length replies = length xs
        /\ chatHistory (ui wf) = flat_map exchange_messages (combine xs replies))
  /\ isLoading (ui wf) = false
  /\ pending wf = [].
Proof.
  intros S.
  destruct (@successful_exchanges_from P xs (mounted supported) eq_refl eq_refl S)
    as (Hp & L & replies & Hl & Hh).
  cbv zeta. simpl app in Hh. rewrite Hh.
  assert (Shape : forall (ys : list Exchange) (rs : list json),
             length rs = length ys ->
             length (flat_map exchange_messages (combine ys rs)) = 2 * length ys
             /\ map role (flat_map exchange_messages (combine ys rs))
                = flat_map (fun _ => [user; model]) ys).
  { induction ys as [|y ys IH]; intros [|r' rs] E; try discriminate E.
    - split; reflexivity.
    - injection E as E. destruct (IH rs E) as [I1 I2].
      simpl. rewrite I1, I2. split; [lia|reflexivity]. }
  destruct (Shape xs replies Hl) as [S1 S2].
  split; [exact S1|]. split; [exact S2|].
  split; [now exists replies|]. split; assumption.
Qed.

Lemma history_after_successful_exchanges_witness :
  let wf := run example_platform (mounted true) (flat_map events_of sample_exchanges) in
  length (chatHistory (ui wf)) = 4
  /\ map role (chatHistory (ui wf)) = [user; model; user; model].
Proof.
  pose proof (@history_after_successful_exchanges example_platform true
                sample_exchanges eq_refl) as H.
  split; apply H.
Defined.

(** ** The voice toggle *)

(** C8, as the code has it.  Pressing the microphone button while the
    page is listening calls [recognition.stop()] and sets the listening
    flag to false; the call itself leaves the input field, the history
    and the exchange alone.  The callbacks stay assigned: a result the
    recognition service still reports for the audio it has captured is
    delivered to the input field. *)
Theorem toggle_while_listening_stops
  (P : Platform) (w : World) (r : Recognition) (start_throws : option Exn) :
  recognition w = Some r ->
  isListening (ui w) = true ->
  let w' := step P w (ToggleListening start_throws) in
  isListening (ui w') = false
  /\ trace w' = trace w ++ [recognition_stop]
  /\ userInput (ui w') = userInput (ui w)
  /\ core w' = core w
  /\ recognition w' = Some r
  /\ (forall transcript,
        callbacks r <> None ->
        userInput (ui (step P w' (RecognitionResult transcript))) = transcript).
Proof.
  intros Hr Hl. simpl. unfold handleToggleListening. rewrite Hr, Hl.
  repeat split; try assumption.
  intros transcript Hc. simpl. rewrite Hr.
  destruct r as [l [c|]]; [reflexivity|]. now contradiction Hc.
Qed.

Lemma toggle_while_listening_stops_witness :
  let w := step example_platform (mounted true) (ToggleListening None) in
  let w' := step example_platform w (ToggleListening None) in
  isListening (ui w) = true
  /\ isListening (ui w') = false
  /\ trace w' = trace w ++ [recognition_stop].
Proof.
  pose proof (@toggle_while_listening_stops example_platform
                (step example_platform (mounted true) (ToggleListening None))
                {| lang := lit "en-US"; callbacks := Some (lit "en-US") |}
                None eq_refl eq_refl) as H.
  split; [reflexivity|]. split; apply H.
Defined.

(** C8 as stated fails: [stop()] asks the recognition service to stop
    listening and to report what it has heard, and the toggle leaves
    [onresult] assigned.  Start listening, press the button again, let
    the service report its result: the transcript is in the input
    field. *)
Lemma transcript_after_toggle_is_delivered :
  let w := run example_platform (mounted true)
             [ToggleListening None; ToggleListening None;
              RecognitionResult (lit "I feel stressed")] in
  userInput (ui w) = lit "I feel stressed"
  /\ trace w = [recognition_start (lit "en-US"); recognition_stop].
Proof. split; reflexivity. Qed.

(** * Further properties of the assistant *)

(** ** The simulated translation *)

(** X1.  Whatever the target and source languages, every passage of a
    text is still in its translation, and the translation ends with the
    text: nothing the generation service wrote, the disclaimer sentence
    included, is lost or altered by [translateText]. *)
Theorem translateText_keeps_every_passage
  (P : Platform) (s passage targetLang : jsstring) (sourceLang : option jsstring) :
  contains s passage ->
  exists s',
    returned (translateText P (JStr s) targetLang sourceLang) = Some (JStr s')
    /\ contains s' passage
    /\ exists front, s' = front ++ s.
Proof.
  intros (pre & post & ->). rewrite translateText_value.
  destruct (startsWith targetLang (lit "en")).
  - eexists. split; [reflexivity|]. split.
    + now exists pre, post.
    + now exists [].
  - eexists. split; [reflexivity|]. split.
    + exists (language_tag targetLang ++ pre), post. now rewrite <- !app_assoc.
    + now exists (language_tag targetLang).
Qed.

Lemma translateText_keeps_every_passage_witness :
  contains (lit "Rest well. Please consult your Vaidya.")
           (lit "Please consult your Vaidya.")
  /\ exists s',
       returned (translateText example_platform
                   (JStr (lit "Rest well. Please consult your Vaidya."))
                   (lit "mr-IN") None) = Some (JStr s')
       /\ contains s' (lit "Please consult your Vaidya.")
       /\ exists front, s' = front ++ lit "Rest well. Please consult your Vaidya.".
Proof.
  assert (C : contains (lit "Rest well. Please consult your Vaidya.")
                       (lit "Please consult your Vaidya.")).
  { exists (lit "Rest well. "), []. reflexivity. }
  split; [exact C|].
  exact (@translateText_keeps_every_passage example_platform
           (lit "Rest well. Please consult your Vaidya.")
           (lit "Please consult your Vaidya.") (lit "mr-IN") None C).
Defined.

(** X2.  For one target language, two texts get the same translation
    exactly when they are the same text, whatever source languages are
    given: the translation tells texts apart and the source language
    plays no part in it. *)
Theorem translateText_tells_texts_apart
  (P : Platform) (s1 s2 targetLang : jsstring) (source1 source2 : option jsstring) :
  returned (translateText P (JStr s1) targetLang source1)
  = returned (translateText P (JStr s2) targetLang source2)
  <-> s1 = s2.
Proof.
  rewrite !translateText_value.
  destruct (startsWith targetLang (lit "en")); split; intros E;
    try congruence.
  injection E as E. now apply app_inv_head in E.
Qed.

(** ** The reply of the generation service *)

(** X3.  In a reply shaped as the generation service shapes it, the
    lookup finds the text of the first part of the first candidate;
    further candidates, further parts and any other property of the
    objects on the way are ignored. *)
Theorem candidate_text_finds_first_part
  (props cprops kprops pprops : list (jsstring * json))
  (candidates parts : list json) (v : json) :
  own_property props (lit "candidates") = Some (JArr (JObj cprops :: candidates)) ->
  own_property cprops (lit "content") = Some (JObj kprops) ->
  own_property kprops (lit "parts") = Some (JArr (JObj pprops :: parts)) ->
  own_property pprops (lit "text") = Some v ->
  candidate_text (JObj props) = inr (Some v).
Proof.
  intros H1 H2 H3 H4. unfold candidate_text, member, get_member.
  rewrite H1. simpl. rewrite H2. simpl. rewrite H3. simpl. now rewrite H4.
Qed.

Lemma candidate_text_finds_first_part_witness :
  candidate_text
    (JObj [(lit "usageMetadata", JObj []);
           (lit "candidates",
            JArr [JObj [(lit "finishReason", JStr (lit "STOP"));
                        (lit "content",
                         JObj [(lit "role", JStr (lit "model"));
                               (lit "parts",
                                JArr [JObj [(lit "text", JStr (lit "first"))];
                                      JObj [(lit "text", JStr (lit "second"))]])])];
                  JObj []])])
  = inr (Some (JStr (lit "first"))).
Proof.
  apply (@candidate_text_finds_first_part
           [(lit "usageMetadata", JObj []);
            (lit "candidates",
             JArr [JObj [(lit "finishReason", JStr (lit "STOP"));
                         (lit "content",
                          JObj [(lit "role", JStr (lit "model"));
                                (lit "parts",
                                 JArr [JObj [(lit "text", JStr (lit "first"))];
                                       JObj [(lit "text", JStr (lit "second"))]])])];
                   JObj []])]
           [(lit "finishReason", JStr (lit "STOP"));
            (lit "content",
             JObj [(lit "role", JStr (lit "model"));
                   (lit "parts",
                    JArr [JObj [(lit "text", JStr (lit "first"))];
                          JObj [(lit "text", JStr (lit "second"))]])])]
           [(lit "role", JStr (lit "model"));
            (lit "parts",
             JArr [JObj [(lit "text", JStr (lit "first"))];
                   JObj [(lit "text", JStr (lit "second"))]])]
           [(lit "text", JStr (lit "first"))]
           [JObj []] [JObj [(lit "text", JStr (lit "second"))]]
           (JStr (lit "first")));
    reflexivity.
Defined.

(** X4.  The lookup throws on one value only: null, whose [candidates]
    cannot be read.  On every other value, however it is shaped, it
    yields a value or undefined; and it yields undefined as soon as the
    reply is an object without [candidates]. *)
Theorem candidate_text_throws_on_null_only (result : json) :
  (forall e, candidate_text result = inl e
             <-> result = JNull /\ e = NullPropertyRead (lit "candidates"))
  /\ (forall props, result = JObj props ->
                    own_property props (lit "candidates") = None ->
                    candidate_text result = inr None).
Proof.
  split.
  - intros e. unfold candidate_text. destruct result; simpl; split;
      try discriminate; try (intros [N _]; discriminate N).
    + intros E. injection E as <-. now split.
    + intros [_ ->]. reflexivity.
  - intros props -> H. unfold candidate_text, member, get_member.
    now rewrite H.
Qed.


(** X5.  When the reply holds a truthy text, an English session appends
    that text as it is, whatever value it is, and nothing reaches the
    [catch] block.  Any other session converts the text to a string:
    when the conversion succeeds the message appended is the language
    tag followed by the converted text and nothing reaches the [catch]
    block; when it throws, as it does on the text [{"toString": 0}], the
    [catch] block receives the error and the apology is appended. *)
Theorem reply_text_is_appended
  (P : Platform) (w : World) (response : Response) (result v : json) :
  pending w = [] ->
  isLoading (ui w) = false ->
  blank (userInput (ui w)) = false ->
  ok response = true ->
  body response = Fulfilled result ->
  candidate_text result = inr (Some v) ->
  truthy (Some v) = true ->
  let wf := run P w [AskAI; FetchSettled 0 (Fulfilled response); BodyRead 0] in
  let language := selectedLanguage (ui w) in
  let appended (reply : json) :=
    chatHistory (ui wf)
    = chatHistory (ui w)
      ++ [user_message (userInput (ui w)); model_message reply] in
  isLoading (ui wf) = false
  /\ if startsWith language (lit "en")
     then appended v /\ caught (trace wf) = caught (trace w)
     else match template P v with
          | inr printed =>
              appended (JStr (language_tag language ++ printed))
              /\ caught (trace wf) = caught (trace w)
          | inl e =>
              appended (JStr apology)
              /\ caught (trace wf) = caught (trace w) ++ [e]
          end.
Proof.
  intros Hp Hl B O Bd C T. cbv zeta.
  rewrite (@exchange_summary P w (Fulfilled response) Hp Hl B).
  assert (A : attempt P (Fulfilled response) = inr v).
  { unfold attempt. rewrite Bd, O, C. unfold or_else. now rewrite T. }
  split; [reflexivity|].
  rewrite after_exchange_history, after_exchange_trace, caught_app,
    caught_exchange.
  unfold appended_reply, outcome, translated_back, language_tag. rewrite A.
  destruct (startsWith (selectedLanguage (ui w)) (lit "en")).
  - split; [reflexivity|apply app_nil_r].
  - destruct (template P v) as [e|printed].
    + split; reflexivity.
    + split; [now rewrite <- !app_assoc|apply app_nil_r].
Qed.

Lemma reply_text_is_appended_witness :
  let w := typed_in (lit "hi-IN") mujhe_tanaav_hai in
  let wf := run example_platform w
              [AskAI; FetchSettled 0
                        (Fulfilled (ok_response (reply_with (JStr (lit "Rest.")))));
               BodyRead 0] in
  chatHistory (ui wf)
  = [user_message mujhe_tanaav_hai; model_message (JStr (lit "[hi] Rest."))].
Proof.
  destruct (@reply_text_is_appended example_platform
              (typed_in (lit "hi-IN") mujhe_tanaav_hai)
              (ok_response (reply_with (JStr (lit "Rest."))))
              _ (JStr (lit "Rest."))
              eq_refl eq_refl eq_refl eq_refl eq_refl eq_refl eq_refl)
    as [_ [H _]].
  exact H.
Defined.

Lemma promises_app (t u : list Obs) :
  promises (t ++ u) = promises t ++ promises u.
Proof. apply flat_map_app. Qed.

(** X6.  An exchange sends one request, built from the text as the user
    typed it, and reads the body of the response exactly once when there
    is a response, whatever its status, and not at all when the request
    fails. *)
Theorem exchange_awaits_fetch_then_body_once
  (P : Platform) (w : World) (r : Outcome Response) :
  pending w = [] ->
  isLoading (ui w) = false ->
  blank (userInput (ui w)) = false ->
  let wf := run P w [AskAI; FetchSettled 0 r; BodyRead 0] in
  promises (trace wf)
  = promises (trace w)
    ++ fetch (apiUrl P) (generation_request P (JStr (userInput (ui w))))
       :: match r with
          | Fulfilled response => [response_json response]
          | RejectedWith _ => []
          end.
Proof.
  intros Hp Hl B. cbv zeta.
  rewrite (@exchange_summary P w r Hp Hl B), after_exchange_trace, promises_app.
  f_equal. unfold exchange_observations.
  destruct (startsWith (selectedLanguage (ui w)) (lit "en"));
    destruct r as [response|e]; simpl;
    try match goal with
        | |- context [attempt P ?x] => destruct (attempt P x)
        end;
    try match goal with
        | |- context [template P ?x] => destruct (template P x)
        end; reflexivity.
Qed.

Lemma exchange_awaits_fetch_then_body_once_witness :
  let response := {| ok := false; statusText := lit "Bad Gateway";
                     body := RejectedWith (HostFailure (lit "SyntaxError")
                                             (lit "Unexpected token")) |} in
  let w := typed (lit "  How do I sleep better? ") in
  let wf := run example_platform w
              [AskAI; FetchSettled 0 (Fulfilled response); BodyRead 0] in
  promises (trace wf)
  = [fetch (apiUrl example_platform)
       (generation_request example_platform
          (JStr (lit "  How do I sleep better? ")));
     response_json response].
Proof.
  apply (@exchange_awaits_fetch_then_body_once example_platform
           (typed (lit "  How do I sleep better? "))
           (Fulfilled {| ok := false; statusText := lit "Bad Gateway";
                         body := RejectedWith (HostFailure (lit "SyntaxError")
                                                 (lit "Unexpected token")) |})
           eq_refl eq_refl eq_refl).
Defined.

(** X7.  What the [catch] block of an exchange receives: the rejection
    of [fetch]; the rejection of the body read, for any status (the
    status text of a response that is not 2xx is then lost); the
    [API error] built from the status text and the parsed body of a
    response that is not 2xx; what reading [candidates] throws on a 2xx
    body (it throws on null only); in a session that is not English,
    what the conversion of the reply to a string throws inside
    [translateText]; and nothing otherwise. *)
Theorem exchange_errors_caught
  (P : Platform) (w : World) (r : Outcome Response) :
  pending w = [] ->
  isLoading (ui w) = false ->
  blank (userInput (ui w)) = false ->
  let wf := run P w [AskAI; FetchSettled 0 r; BodyRead 0] in
  let language := selectedLanguage (ui w) in
  caught (trace wf)
  = caught (trace w)
    ++ match r with
       | RejectedWith e => [e]
       | Fulfilled response =>
           match body response with
           | RejectedWith e => [e]
           | Fulfilled j =>
               if ok response
               then match candidate_text j with
                    | inl e => [e]
                    | inr candidate =>
                        if startsWith language (lit "en") then []
                        else match template P (or_else candidate
                                                 (JStr placeholder)) with
                             | inl e => [e]
                             | inr _ => []
                             end
                    end
               else [Error (lit "API error: " ++ statusText response ++ lit " - "
                            ++ JSON_stringify P j)]
           end
       end.
Proof.
  intros Hp Hl B. cbv zeta.
  rewrite (@exchange_summary P w r Hp Hl B), after_exchange_trace, caught_app,
    caught_exchange.
  f_equal. unfold outcome, attempt, translated_back.
  destruct r as [response|e]; [|reflexivity].
  destruct (body response) as [j|e]; [|reflexivity].
  destruct (ok response); [|reflexivity].
  destruct (candidate_text j) as [e|candidate]; [reflexivity|].
  destruct (startsWith (selectedLanguage (ui w)) (lit "en")); [reflexivity|].
  now destruct (template P (or_else candidate (JStr placeholder))).
Qed.

Lemma exchange_errors_caught_witness :
  let w := typed_in (lit "mr-IN") (lit "How do I sleep better?") in
  let wf := run example_platform w
              [AskAI; FetchSettled 0 (Fulfilled (ok_response (reply_with unprintable)));
               BodyRead 0] in
  caught (trace wf) = [no_primitive_value].
Proof.
  apply (@exchange_errors_caught example_platform
           (typed_in (lit "mr-IN") (lit "How do I sleep better?"))
           (Fulfilled (ok_response (reply_with unprintable)))
           eq_refl eq_refl eq_refl).
Defined.

(** X8.  An accepted submission empties the text field, and the
    exchange leaves it empty: submitting again once the exchange is
    over, without typing or dictating anything, does nothing. *)
Theorem resubmission_without_new_text_is_ignored
  (P : Platform) (w : World) (r : Outcome Response) :
  pending w = [] ->
  isLoading (ui w) = false ->
  blank (userInput (ui w)) = false ->
  let wf := run P w [AskAI; FetchSettled 0 r; BodyRead 0] in
  userInput (ui wf) = []
  /\ step P wf AskAI = wf.
Proof.
  intros Hp Hl B. cbv zeta.
  rewrite (@exchange_summary P w r Hp Hl B).
  split; [reflexivity|].
  unfold step. rewrite handleAskAI_blank; reflexivity.
Qed.

Lemma resubmission_without_new_text_is_ignored_witness :
  let w := typed (lit "How do I sleep better?") in
  let wf := run example_platform w
              [AskAI; FetchSettled 0 (Fulfilled (ok_response (JObj []))); BodyRead 0] in
  userInput (ui wf) = []
  /\ step example_platform wf AskAI = wf.
Proof.
  apply (@resubmission_without_new_text_is_ignored example_platform
           (typed (lit "How do I sleep better?"))
           (Fulfilled (ok_response (JObj []))) eq_refl eq_refl eq_refl).
Defined.

(** ** What a settling promise leaves alone *)

Lemma quiet_controls (a : Action) (w : World) :
  quiet a = true ->
  userInput (ui (apply_action a w)) = userInput (ui w)
  /\ selectedLanguage (ui (apply_action a w)) = selectedLanguage (ui w)
  /\ isListening (ui (apply_action a w)) = isListening (ui w)
  /\ recognition (apply_action a w) = recognition w.
Proof. destruct a; simpl; intros Q; try discriminate Q; repeat split. Qed.

Lemma exec_finishing_controls (h : list ChatMessage) (m : Async unit) :
  Finishing h m ->
  forall w,
    userInput (ui (exec m w)) = userInput (ui w)
    /\ selectedLanguage (ui (exec m w)) = selectedLanguage (ui w)
    /\ isListening (ui (exec m w)) = isListening (ui w)
    /\ recognition (exec m w) = recognition w.
Proof.
  induction 1 as [reply R|a k Q F IH|c k F IH]; intros w.
  - repeat split.
  - simpl. destruct (IH (apply_action a w)) as (I1 & I2 & I3 & I4).
    destruct (quiet_controls a w Q) as (Q1 & Q2 & Q3 & Q4).
    repeat split; congruence.
  - repeat split.
Qed.

Lemma settlement_controls (P : Platform) (w : World) (e : Event) :
  consistent w ->
  bystander e = false ->
  userInput (ui (step P w e)) = userInput (ui w)
  /\ selectedLanguage (ui (step P w e)) = selectedLanguage (ui w)
  /\ isListening (ui (step P w e)) = isListening (ui w)
  /\ recognition (step P w e) = recognition w.
Proof.
  intros C NB. unfold consistent in C.
  destruct e; try discriminate NB; simpl.
  - unfold settle_fetch.
    destruct (pending w) as [|s [|s' l]] eqn:Hp; [| |contradiction].
    { destruct i; repeat split. }
    destruct i as [|i]; simpl; [|destruct i; repeat split].
    destruct s as [c k]. destruct c; [|repeat split].
    destruct C as (_ & _ & F).
    apply (exec_finishing_controls (F r) (with_pending [] w)).
  - unfold settle_body.
    destruct (pending w) as [|s [|s' l]] eqn:Hp; [| |contradiction].
    { destruct i; repeat split. }
    destruct i as [|i]; simpl; [|destruct i; repeat split].
    destruct s as [c k]. destruct c; [repeat split|].
    destruct C as (_ & _ & F).
    apply (exec_finishing_controls (F (body response)) (with_pending [] w)).
Qed.

(** X9.  On every page the component can reach, a promise that settles
    changes the history and the flag at most: the text field, the
    selected language, the listening flag and the recognition object
    are as they were.  What the user typed or dictated while waiting is
    still there when the reply arrives. *)
Theorem settlement_leaves_the_controls_alone
  (P : Platform) (w : World) (e : Event) :
  reachable P w ->
  bystander e = false ->
  userInput (ui (step P w e)) = userInput (ui w)
  /\ selectedLanguage (ui (step P w e)) = selectedLanguage (ui w)
  /\ isListening (ui (step P w e)) = isListening (ui w)
  /\ recognition (step P w e) = recognition w.
Proof.
  intros R NB. apply settlement_controls; [|exact NB].
  now apply reachable_consistent with (P := P).
Qed.

Lemma settlement_leaves_the_controls_alone_witness :
  let w := run example_platform (mounted true)
             [ChangeInput (lit "How do I sleep better?"); AskAI;
              ChangeInput (lit "And what should I eat?")] in
  reachable example_platform w
  /\ userInput (ui (step example_platform w (FetchSettled 0 fetch_failed)))
     = lit "And what should I eat?".
Proof.
  assert (R : reachable example_platform
                (run example_platform (mounted true)
                   [ChangeInput (lit "How do I sleep better?"); AskAI;
                    ChangeInput (lit "And what should I eat?")])).
  { exists true. eexists. reflexivity. }
  split; [exact R|].
  apply (@settlement_leaves_the_controls_alone example_platform _
           (FetchSettled 0 fetch_failed) R eq_refl).
Defined.

(** X10.  The outcome of an exchange is fixed when it is submitted.
    Whatever the user and the recognition service do while the request
    is out (typing, dictating, picking another language, submitting
    again) and, short of a submission, while the body is read, the
    history ends as it does when nothing happens meanwhile: with the
    message submitted and with the reply translated for the language
    that was selected at submission, or with the apology. *)
Theorem exchange_outcome_is_fixed_at_submission
  (P : Platform) (w : World) (r : Outcome Response)
  (while_generating while_reading : list Event) :
  pending w = [] ->
  isLoading (ui w) = false ->
  blank (userInput (ui w)) = false ->
  forallb bystander while_generating = true ->
  forallb onlooker while_reading = true ->
  let wf := run P w ([AskAI] ++ while_generating ++ [FetchSettled 0 r]
                     ++ while_reading ++ [BodyRead 0]) in
  chatHistory (ui wf)
  = chatHistory (ui (run P w [AskAI; FetchSettled 0 r; BodyRead 0]))
  /\ chatHistory (ui wf)
     = chatHistory (ui w)
       ++ [user_message (userInput (ui w));
           model_message (appended_reply P (selectedLanguage (ui w)) r)]
  /\ isLoading (ui wf) = false
  /\ pending wf = [].
Proof.
  intros Hp Hl B B1 B2. cbv zeta.
  assert (E : core (run P w ([AskAI] ++ while_generating ++ [FetchSettled 0 r]
                             ++ while_reading ++ [BodyRead 0]))
              = core (run P w [AskAI; FetchSettled 0 r; BodyRead 0])).
  { rewrite !run_app.
    change (run P w [AskAI]) with (step P w AskAI).
    change (run P w [AskAI; FetchSettled 0 r; BodyRead 0])
      with (step P (step P (step P w AskAI) (FetchSettled 0 r)) (BodyRead 0)).
    set (w1 := step P w AskAI).
    assert (L1 : isLoading (ui w1) = true) by apply (submission_effect P w Hl B).
    pose proof (bystanders_core P while_generating w1 B1 L1) as E1.
    set (w2 := run P w1 while_generating) in *.
    assert (E2 : core (step P w2 (FetchSettled 0 r))
                 = core (step P w1 (FetchSettled 0 r)))
      by (apply (settle_core_congr P (FetchSettled 0 r)); [reflexivity|exact E1]).
    change (run P w2 [FetchSettled 0 r]) with (step P w2 (FetchSettled 0 r)).
    set (w3 := step P w2 (FetchSettled 0 r)) in *.
    pose proof (onlookers_core P while_reading w3 B2) as E3.
    change (run P (run P w3 while_reading) [BodyRead 0])
      with (step P (run P w3 while_reading) (BodyRead 0)).
    apply (settle_core_congr P (BodyRead 0)); [reflexivity|].
    now rewrite E3. }
  rewrite (@exchange_summary P w r Hp Hl B) in *.
  unfold core in E.
  apply pair_equal_spec in E as [E E3]. apply pair_equal_spec in E as [E1 E2].
  rewrite E1, E2, E3. split; [reflexivity|]. split; [|split; reflexivity].
  apply after_exchange_history.
Qed.

Lemma exchange_outcome_is_fixed_at_submission_witness :
  let w := typed_in (lit "hi-IN") mujhe_tanaav_hai in
  let wf := run example_platform w
              ([AskAI]
               ++ [SelectLanguage (lit "en-US"); ChangeInput (lit "more"); AskAI]
               ++ [FetchSettled 0 (Fulfilled (ok_response (JObj [])))]
               ++ [SelectLanguage (lit "mr-IN")] ++ [BodyRead 0]) in
  chatHistory (ui wf)
  = [user_message mujhe_tanaav_hai;
     model_message (JStr (lit "[hi] Sorry, I couldn't process that."))]
  /\ isLoading (ui wf) = false
  /\ pending wf = [].
Proof.
  apply (@exchange_outcome_is_fixed_at_submission example_platform
           (typed_in (lit "hi-IN") mujhe_tanaav_hai)
           (Fulfilled (ok_response (JObj [])))
           [SelectLanguage (lit "en-US"); ChangeInput (lit "more"); AskAI]
           [SelectLanguage (lit "mr-IN")]
           eq_refl eq_refl eq_refl eq_refl eq_refl).
Defined.

(** ** What holds on every page *)

(** A property that every event keeps on a consistent page holds all
    along a run that starts on a consistent page where it holds. *)
Lemma run_invariant (P : Platform) (I : World -> Prop) :
  (forall w e, consistent w -> I w -> I (step P w e)) ->
  forall events w, consistent w -> I w -> I (run P w events).
Proof.
  intros Step. induction events as [|e events IH]; intros w C H; [exact H|].
  change (I (run P (step P w e) events)).
  apply IH; [now apply step_consistent|now apply Step].
Qed.

Lemma reachable_invariant (P : Platform) (I : World -> Prop) :
  (forall supported, I (mounted supported)) ->
  (forall w e, consistent w -> I w -> I (step P w e)) ->
  forall w, reachable P w -> I w.
Proof.
  intros Base Step w (supported & events & ->).
  apply run_invariant; [exact Step|apply mounted_consistent|apply Base].
Qed.

Lemma exchanges_take_turns (h : list ChatMessage) :
  Exchanges h ->
  Nat.even (length h) = true /\ map role h = turns (length h).
Proof.
  induction 1 as [|h u m Ex [Ev IH] Ru Rm]; [split; reflexivity|].
  rewrite length_app, map_app. simpl length.
  replace (length h + 2) with (S (S (length h))) by lia.
  split; [exact Ev|].
  assert (Od : Nat.even (S (length h)) = false)
    by (rewrite Nat.even_succ, <- Nat.negb_even, Ev; reflexivity).
  change (turns (S (S (length h))))
    with ((turns (length h) ++ [if Nat.even (length h) then user else model])
          ++ [if Nat.even (S (length h)) then user else model]).
  rewrite Ev, Od, IH, <- app_assoc. simpl. now rewrite Ru, Rm.
Qed.

(** X11.  On every page the component can reach, failed exchanges
    included, the roles of the history are user, model, user, model,
    ... from its first message on, and the flag is true exactly when the
    history has an odd number of messages, that is when its last message
    is a question still waiting for its answer. *)
Theorem history_takes_turns (P : Platform) (w : World) :
  reachable P w ->
  map role (chatHistory (ui w)) = turns (length (chatHistory (ui w)))
  /\ isLoading (ui w) = Nat.odd (length (chatHistory (ui w))).
Proof.
  intros R. pose proof (reachable_consistent R) as C.
  unfold consistent in C.
  destruct (pending w) as [|s [|s' l]]; [| |contradiction].
  - destruct C as (L & Ex). destruct (exchanges_take_turns Ex) as (Ev & T).
    split; [exact T|]. now rewrite L, <- Nat.negb_even, Ev.
  - destruct C as (L & (h & u & Hh & Ex & Ru) & _).
    destruct (exchanges_take_turns Ex) as (Ev & T).
    rewrite Hh, length_app, map_app. simpl length.
    replace (length h + 1) with (S (length h)) by lia.
    split.
    + change (turns (S (length h)))
        with (turns (length h) ++ [if Nat.even (length h) then user else model]).
      simpl. now rewrite Ev, T, Ru.
    + now rewrite L, Nat.odd_succ, Ev.
Qed.

Lemma history_takes_turns_witness :
  let w := run example_platform (mounted true)
             [ChangeInput (lit "How do I sleep better?"); AskAI;
              FetchSettled 0 fetch_failed;
              ChangeInput (lit "And what should I eat?"); AskAI] in
  reachable example_platform w
  /\ map role (chatHistory (ui w)) = [user; model; user]
  /\ isLoading (ui w) = true.
Proof.
  assert (R : reachable example_platform
                (run example_platform (mounted true)
                   [ChangeInput (lit "How do I sleep better?"); AskAI;
                    FetchSettled 0 fetch_failed;
                    ChangeInput (lit "And what should I eat?"); AskAI])).
  { exists true. eexists. reflexivity. }
  split; [exact R|].
  exact (@history_takes_turns example_platform _ R).
Defined.

Lemma idle_nothing_pending (w : World) :
  consistent w -> isLoading (ui w) = false -> pending w = [].
Proof.
  unfold consistent. destruct (pending w) as [|s [|s' l]];
    [reflexivity| |contradiction].
  intros (L & _) L'. congruence.
Qed.

(** X12.  On every page the component can reach, an event never removes
    or rewrites a message: the history after it is the history before
    it, followed by at most one new message. *)
Theorem history_only_grows (P : Platform) (w : World) (e : Event) :
  reachable P w ->
  exists suffix,
    chatHistory (ui (step P w e)) = chatHistory (ui w) ++ suffix
    /\ length suffix <= 1.
Proof.
  intros R. pose proof (reachable_consistent R) as C.
  assert (Same : step P w e = w \/ core (step P w e) = core w ->
                 exists suffix,
                   chatHistory (ui (step P w e)) = chatHistory (ui w) ++ suffix
                   /\ length suffix <= 1).
  { intros [E|E]; exists [];
      (split; [rewrite app_nil_r|simpl; lia]).
    - now rewrite E.
    - unfold core in E. congruence. }
  destruct (isLoading (ui w)) eqn:L.
  - destruct (@step_consistent P w e C) as (_ & D).
    destruct (D L) as [(_ & H)|(_ & _ & reply & _ & H)].
    + exists []. split; [now rewrite app_nil_r|simpl; lia].
    + exists [reply]. split; [exact H|simpl; lia].
  - pose proof (@idle_nothing_pending w C L) as Hp.
    destruct e;
      try (apply Same; right; apply onlooker_core; [reflexivity|discriminate]).
    + destruct (blank (userInput (ui w))) eqn:B.
      * apply Same. left. simpl. now rewrite handleAskAI_blank.
      * exists [user_message (userInput (ui w))].
        split; [apply (submission_effect P w L B)|simpl; lia].
    + apply Same. left. simpl. unfold settle_fetch. rewrite Hp.
      now destruct i.
    + apply Same. left. simpl. unfold settle_body. rewrite Hp.
      now destruct i.
Qed.

Lemma history_only_grows_witness :
  let w := run example_platform (mounted true)
             [ChangeInput (lit "How do I sleep better?"); AskAI] in
  reachable example_platform w
  /\ exists suffix,
       chatHistory (ui (step example_platform w (FetchSettled 0 fetch_failed)))
       = chatHistory (ui w) ++ suffix
       /\ length suffix <= 1.
Proof.
  assert (R : reachable example_platform
                (run example_platform (mounted true)
                   [ChangeInput (lit "How do I sleep better?"); AskAI])).
  { exists true. eexists. reflexivity. }
  split; [exact R|].
  exact (@history_only_grows example_platform _ (FetchSettled 0 fetch_failed) R).
Defined.

(** ** The voice controls *)

Lemma submission_controls (P : Platform) (w : World) :
  isListening (ui (step P w AskAI)) = isListening (ui w)
  /\ recognition (step P w AskAI) = recognition w.
Proof.
  destruct (isLoading (ui w)) eqn:L.
  { simpl. rewrite handleAskAI_loading by exact L. split; reflexivity. }
  destruct (blank (userInput (ui w))) eqn:B.
  { simpl. rewrite handleAskAI_blank by exact B. split; reflexivity. }
  split; apply (submission_effect P w L B).
Qed.

Lemma listening_invariant (P : Platform) (w : World) :
  reachable P w ->
  isListening (ui w) = true ->
  exists language,
    recognition w = Some {| lang := language; callbacks := Some language |}.
Proof.
  revert w.
  apply (@reachable_invariant P
           (fun w => isListening (ui w) = true ->
                     exists language,
                       recognition w
                       = Some {| lang := language; callbacks := Some language |})).
  - intros supported L. discriminate L.
  - intros w e C I.
    destruct e.
    + exact I.
    + exact I.
    + destruct (submission_controls P w) as (E1 & E2). now rewrite E1, E2.
    + simpl. unfold handleToggleListening.
      destruct (recognition w) as [r|] eqn:Hr.
      * destruct (isListening (ui w)) eqn:L; [intros H; discriminate H|].
        destruct start_throws; [intros H; discriminate H|].
        intros _. now exists (selectedLanguage (ui w)).
      * simpl. rewrite Hr. exact I.
    + simpl. destruct (recognition w) as [[l [c|]]|] eqn:Hr;
        try (rewrite Hr; exact I).
      intros H. discriminate H.
    + simpl. destruct (recognition w) as [[l [c|]]|] eqn:Hr;
        try (rewrite Hr; exact I).
      unfold onerror. destruct (jsstring_eqb error _); intros H; discriminate H.
    + simpl. destruct (recognition w) as [[l [c|]]|] eqn:Hr;
        try (rewrite Hr; exact I).
      intros H. discriminate H.
    + destruct (@settlement_controls P w (FetchSettled i r) C eq_refl)
        as (_ & _ & E1 & E2). now rewrite E1, E2.
    + destruct (@settlement_controls P w (BodyRead i) C eq_refl)
        as (_ & _ & E1 & E2). now rewrite E1, E2.
Qed.

(** X13.  On every page the component can reach, while the page is
    listening the recognition object exists, its three callbacks are
    assigned, and the language they close over (the one the
    language-not-supported notice names) is the language the recognition
    runs in. *)
Theorem listening_has_its_callbacks (P : Platform) (w : World) :
  reachable P w ->
  isListening (ui w) = true ->
  exists language,
    recognition w = Some {| lang := language; callbacks := Some language |}.
Proof. apply listening_invariant. Qed.

Lemma listening_has_its_callbacks_witness :
  let w := run example_platform (mounted true)
             [SelectLanguage (lit "mr-IN"); ToggleListening None;
              SelectLanguage (lit "en-US")] in
  reachable example_platform w
  /\ isListening (ui w) = true
  /\ exists language,
       recognition w = Some {| lang := language; callbacks := Some language |}.
Proof.
  assert (R : reachable example_platform
                (run example_platform (mounted true)
                   [SelectLanguage (lit "mr-IN"); ToggleListening None;
                    SelectLanguage (lit "en-US")])).
  { exists true. eexists. reflexivity. }
  split; [exact R|]. split; [reflexivity|].
  exact (@listening_has_its_callbacks example_platform _ R eq_refl).
Defined.

(** X14.  Without a SpeechRecognition constructor the page never
    listens: whatever happens, the recognition object stays absent, the
    listening flag stays false and the microphone button stays
    disabled. *)
Theorem unsupported_browser_never_listens
  (P : Platform) (events : list Event) :
  let w := run P (mounted false) events in
  recognition w = None
  /\ isListening (ui w) = false
  /\ mic_disabled w = true.
Proof.
  cbv zeta.
  assert (H : recognition (run P (mounted false) events) = None
              /\ isListening (ui (run P (mounted false) events)) = false).
  { apply (run_invariant P (fun w => recognition w = None
                                     /\ isListening (ui w) = false));
      [|apply mounted_consistent|split; reflexivity].
    intros w e C (Hr & Hl).
    destruct e; simpl.
    - now split.
    - now split.
    - destruct (submission_controls P w) as (E1 & E2).
      simpl in E1, E2. now rewrite E1, E2.
    - unfold handleToggleListening. rewrite Hr. now split.
    - rewrite Hr. now split.
    - rewrite Hr. now split.
    - rewrite Hr. now split.
    - destruct (@settlement_controls P w (FetchSettled i r) C eq_refl)
        as (_ & _ & E1 & E2). simpl in E1, E2. now rewrite E1, E2.
    - destruct (@settlement_controls P w (BodyRead i) C eq_refl)
        as (_ & _ & E1 & E2). simpl in E1, E2. now rewrite E1, E2. }
  destruct H as (Hr & Hl). unfold mic_disabled. now rewrite Hr.
Qed.

(** X15.  Pressing the microphone button shows the notice that the
    browser has no voice recognition exactly when the button is
    disabled: a click, which only an enabled button receives, never
    shows it. *)
Theorem no_voice_support_notice_iff_mic_disabled
  (P : Platform) (w : World) (start_throws : option Exn) :
  trace (step P w (ToggleListening start_throws))
  = trace w ++ [did (alert no_voice_support)]
  <-> mic_disabled w = true.
Proof.
  simpl. unfold handleToggleListening, mic_disabled.
  destruct (recognition w) as [r|]; [|split; reflexivity].
  split; [|discriminate].
  destruct (isListening (ui w)); [|destruct start_throws]; simpl; intros E.
  - apply app_inv_head in E. discriminate E.
  - rewrite <- app_assoc in E. apply app_inv_head in E. discriminate E.
  - apply app_inv_head in E. discriminate E.
Qed.

(** X16.  Dictation: on a page that is not listening, pressing the
    microphone starts the recognition in the selected language, and the
    result it reports ends the listening and replaces whatever the text
    field held; neither touches the history or an exchange in flight.
    Submitting then sends the transcript. *)
Theorem dictation_replaces_the_text
  (P : Platform) (w : World) (r : Recognition) (transcript : jsstring) :
  recognition w = Some r ->
  isListening (ui w) = false ->
  let w1 := step P w (ToggleListening None) in
  let w2 := step P w1 (RecognitionResult transcript) in
  isListening (ui w1) = true
  /\ trace w2 = trace w ++ [recognition_start (selectedLanguage (ui w))]
  /\ userInput (ui w2) = transcript
  /\ isListening (ui w2) = false
  /\ core w2 = core w
  /\ (isLoading (ui w) = false -> blank transcript = false ->
      chatHistory (ui (step P w2 AskAI))
      = chatHistory (ui w) ++ [user_message transcript]).
Proof.
  intros Hr Hl. cbv zeta.
  assert (E1 : step P w (ToggleListening None)
               = with_recognition
                   {| lang := selectedLanguage (ui w);
                      callbacks := Some (selectedLanguage (ui w)) |}
                   (apply_action (setIsListening true)
                      (log (recognition_start (selectedLanguage (ui w)))
                         (with_recognition
                            {| lang := selectedLanguage (ui w);
                               callbacks := callbacks r |} w)))).
  { simpl. unfold handleToggleListening. now rewrite Hr, Hl. }
  rewrite E1.
  repeat split.
  intros L B.
  match goal with |- chatHistory (ui (step P ?v AskAI)) = _ => set (w2 := v) end.
  assert (L2 : isLoading (ui w2) = false) by exact L.
  assert (B2 : blank (userInput (ui w2)) = false) by exact B.
  apply (submission_effect P w2 L2 B2).
Qed.

Lemma dictation_replaces_the_text_witness :
  let w := typed (lit "typed before") in
  let w2 := run example_platform w
              [ToggleListening None; RecognitionResult mujhe_tanaav_hai] in
  recognition w = Some {| lang := []; callbacks := None |}
  /\ userInput (ui w2) = mujhe_tanaav_hai
  /\ isListening (ui w2) = false.
Proof.
  pose proof (@dictation_replaces_the_text example_platform
                (typed (lit "typed before")) {| lang := []; callbacks := None |}
                mujhe_tanaav_hai eq_refl eq_refl) as H.
  split; [reflexivity|]. split; apply H.
Defined.

(** X20.  A recognition error while the page is listening ends the
    listening and leaves the text field, the history and any exchange in
    flight alone.  The user is told only of [language-not-supported],
    with the notice naming the language the recognition runs in; any
    other error (no speech, microphone refused, ...) is written to the
    console and nothing is shown. *)
Theorem recognition_error_ends_listening
  (P : Platform) (w : World) (error : jsstring) :
  reachable P w ->
  isListening (ui w) = true ->
  let w' := step P w (RecognitionError error) in
  isListening (ui w') = false
  /\ userInput (ui w') = userInput (ui w)
  /\ core w' = core w
  /\ exists language,
       recognition w = Some {| lang := language; callbacks := Some language |}
       /\ trace w'
          = trace w
            ++ [if jsstring_eqb error (lit "language-not-supported")
                then did (alert (unsupported_language language))
                else did (console_error_text (lit "Speech recognition error:")
                            error)].
Proof.
  intros R L. destruct (@listening_invariant P w R L) as (language & Hr).
  cbv zeta. simpl. rewrite Hr. unfold onerror.
  destruct (jsstring_eqb error (lit "language-not-supported"));
    (repeat split); exists language; (split; reflexivity).
Qed.

Lemma recognition_error_ends_listening_witness :
  let w := run example_platform (mounted true)
             [ChangeInput (lit "typed"); ToggleListening None] in
  let w' := step example_platform w (RecognitionError (lit "not-allowed")) in
  reachable example_platform w
  /\ isListening (ui w') = false
  /\ userInput (ui w') = lit "typed".
Proof.
  assert (R : reachable example_platform
                (run example_platform (mounted true)
                   [ChangeInput (lit "typed"); ToggleListening None])).
  { exists true. eexists. reflexivity. }
  pose proof (@recognition_error_ends_listening example_platform _
                (lit "not-allowed") R eq_refl) as H.
  split; [exact R|]. split; apply H.
Defined.

(** ** The buttons of the assistant *)

(** X17.  The Send button is disabled exactly when a submission would be
    ignored; and in the enabled text field an Enter press is ignored
    only for a blank text.  Through these two controls, the only ones
    that call [handleAskAI], a submission never meets the flag set. *)
Theorem send_button_agrees_with_the_guard (P : Platform) (w : World) :
  (send_disabled (ui w) = true <-> step P w AskAI = w)
  /\ (input_disabled (ui w) = false ->
      (blank (userInput (ui w)) = true <-> step P w AskAI = w)).
Proof.
  assert (Accepted : isLoading (ui w) = false ->
                     blank (userInput (ui w)) = false ->
                     step P w AskAI <> w).
  { intros L B E.
    pose proof (submission_effect P w L B) as (L' & _).
    rewrite E in L'. congruence. }
  unfold send_disabled, input_disabled. rewrite truthy_trim, negb_involutive.
  split.
  - split.
    + intros D. apply orb_true_iff in D as [L|B]; simpl.
      * now rewrite handleAskAI_loading.
      * now rewrite handleAskAI_blank.
    + intros E. destruct (isLoading (ui w)) eqn:L; [reflexivity|].
      destruct (blank (userInput (ui w))) eqn:B; [reflexivity|].
      now destruct (Accepted eq_refl eq_refl).
  - intros D. apply orb_false_iff in D as [L _]. split.
    + intros B. simpl. now rewrite handleAskAI_blank.
    + intros E. destruct (blank (userInput (ui w))) eqn:B; [reflexivity|].
      now destruct (Accepted L eq_refl).
Qed.

Lemma nth_error_snoc2 (A : Type) (h : list A) (a b : A) :
  nth_error (h ++ [a; b]) (length h) = Some a
  /\ nth_error (h ++ [a; b]) (S (length h)) = Some b.
Proof. induction h as [|x h IH]; simpl; [split; reflexivity|exact IH]. Qed.

Lemma chat_renders_after_exchange
  (P : Platform) (w : World) (r : Outcome Response) (tag : jsstring) :
  chat_renders (step P (after_exchange P w r) (SelectLanguage tag))
  = chat_renders w
    && renderable (appended_reply P (selectedLanguage (ui w)) r).
Proof.
  unfold chat_renders, after_exchange. simpl.
  rewrite !forallb_app. simpl. now rewrite !andb_true_r.
Qed.

(** X18.  After an exchange, with the assistant on screen.  The list of
    messages renders when it rendered before and the reply appended can
    be drawn; a reply that is an object, which an English session
    appends as it finds it, cannot, and then the render throws and no
    button is left.  When the list renders, the loudspeaker button
    exists for the reply and not for the user's message, and pressing it
    speaks the reply, which was written for the language selected at
    submission, in the language selected at the time of the press;
    without speech synthesis it only tells so. *)
Theorem reply_is_spoken_in_the_selected_language
  (P : Platform) (synthesis : bool) (w : World) (r : Outcome Response)
  (tag : jsstring) :
  pending w = [] ->
  isLoading (ui w) = false ->
  blank (userInput (ui w)) = false ->
  let wf := run P w [AskAI; FetchSettled 0 r; BodyRead 0; SelectLanguage tag] in
  let reply := appended_reply P (selectedLanguage (ui w)) r in
  chat_renders wf = chat_renders w && renderable reply
  /\ if chat_renders wf
     then speak_button synthesis wf (length (chatHistory (ui w))) = None
          /\ speak_button synthesis wf (S (length (chatHistory (ui w))))
             = Some (if synthesis then spoken reply tag
                     else speech_alert
                            (lit "Sorry, your browser doesn't support text-to-speech."))
     else forall index, speak_button synthesis wf index = None.
Proof.
  intros Hp Hl B. cbv zeta.
  change (run P w [AskAI; FetchSettled 0 r; BodyRead 0; SelectLanguage tag])
    with (step P (run P w [AskAI; FetchSettled 0 r; BodyRead 0])
            (SelectLanguage tag)).
  rewrite (@exchange_summary P w r Hp Hl B).
  split; [apply chat_renders_after_exchange|].
  unfold speak_button.
  destruct (chat_renders (step P (after_exchange P w r) (SelectLanguage tag)));
    [|reflexivity].
  simpl chatHistory. rewrite <- app_assoc. simpl app.
  destruct (nth_error_snoc2 (chatHistory (ui w))
              (user_message (userInput (ui w)))
              (model_message (appended_reply P (selectedLanguage (ui w)) r)))
    as (N1 & N2).
  rewrite N1, N2. split; reflexivity.
Qed.

Lemma reply_is_spoken_in_the_selected_language_witness :
  let w := typed_in (lit "hi-IN") mujhe_tanaav_hai in
  let wf := run example_platform w
              [AskAI; FetchSettled 0 fetch_failed; BodyRead 0;
               SelectLanguage (lit "mr-IN")] in
  speak_button true wf 0 = None
  /\ speak_button true wf 1 = Some (spoken (JStr apology) (lit "mr-IN")).
Proof.
  destruct (@reply_is_spoken_in_the_selected_language example_platform true
              (typed_in (lit "hi-IN") mujhe_tanaav_hai) fetch_failed (lit "mr-IN")
              eq_refl eq_refl eq_refl) as [_ H].
  exact H.
Defined.

(** In an English session a reply whose text is an object is appended as
    it is; the list of messages cannot be rendered any more, and no
    message has a loudspeaker button. *)
Example object_reply_leaves_no_button :
  let wf := run example_platform (typed (lit "How do I sleep better?"))
              [AskAI; FetchSettled 0 (Fulfilled (ok_response (reply_with unprintable)));
               BodyRead 0] in
  chatHistory (ui wf)
  = [user_message (lit "How do I sleep better?"); model_message unprintable]
  /\ chat_renders wf = false
  /\ speak_button true wf 1 = None.
Proof. repeat split. Qed.

(** ** The tabs *)

Lemma press_all_safe (presses : list nat) :
  forall activeTab,
    In activeTab [lit "overview"; lit "sessions"; lit "guidance"] ->
    match press_all activeTab presses with
    | inl e => presses_progress presses = true /\ e = progressData_undefined
    | inr activeTab' =>
        presses_progress presses = false
        /\ In activeTab' [lit "overview"; lit "sessions"; lit "guidance"]
    end.
Proof.
  induction presses as [|i presses IH]; intros t H; [now split|].
  assert (Again : forall t', In t' [lit "overview"; lit "sessions"; lit "guidance"] ->
                             press_tab t i = t' -> i <> 2 ->
                             match press_all t (i :: presses) with
                             | inl e => presses_progress (i :: presses) = true
                                        /\ e = progressData_undefined
                             | inr activeTab' =>
                                 presses_progress (i :: presses) = false
                                 /\ In activeTab' [lit "overview"; lit "sessions";
                                                   lit "guidance"]
                             end).
  { intros t' H' E N.
    change (press_all t (i :: presses))
      with (match rendered (press_tab t i) with
            | inl e => inl e
            | inr _ => press_all (press_tab t i) presses
            end).
    rewrite E.
    assert (R : exists blocks, rendered t' = inr blocks).
    { simpl in H'. destruct H' as [<-|[<-|[<-|[]]]]; eexists; reflexivity. }
    destruct R as (blocks & ->).
    replace (presses_progress (i :: presses)) with (presses_progress presses).
    - now apply IH.
    - unfold presses_progress.
      change (existsb (Nat.eqb 2) (i :: presses))
        with (Nat.eqb 2 i || existsb (Nat.eqb 2) presses).
      destruct (Nat.eqb_spec 2 i) as [<-|_]; [now contradiction N|reflexivity]. }
  destruct i as [|[|[|[|i]]]].
  - apply (Again (lit "overview")); [simpl; auto|reflexivity|discriminate].
  - apply (Again (lit "sessions")); [simpl; auto|reflexivity|discriminate].
  - split; reflexivity.
  - apply (Again (lit "guidance")); [simpl; auto|reflexivity|discriminate].
  - apply (Again t); [exact H| |discriminate].
    unfold press_tab. simpl. now destruct i.
Qed.

(** X19.  The tab buttons, pressed in any order from the page as it
    mounts.  A press on Progress makes the render throw a
    ReferenceError, since the Progress block reads [progressData], which
    is declared nowhere: the page is gone.  Short of that, one block of
    the page is rendered and one tab button is drawn as active; and
    right after a press on one of the three other buttons it is the
    block of that button which is rendered, under that button's
    label. *)
Theorem one_tab_at_a_time (presses : list nat) :
  match press_all (lit "overview") presses with
  | inl e => presses_progress presses = true /\ e = progressData_undefined
  | inr activeTab =>
      presses_progress presses = false
      /\ (exists block, rendered activeTab = inr [block])
      /\ length (highlighted activeTab) = 1
      /\ forall i key label,
           nth_error tabs i = Some (key, label) ->
           match block_of_tab i with
           | Some Progress | None =>
               rendered (press_tab activeTab i) = inl progressData_undefined
           | Some block =>
               rendered (press_tab activeTab i) = inr [block]
               /\ highlighted (press_tab activeTab i) = [label]
           end
  end.
Proof.
  pose proof (@press_all_safe presses (lit "overview")) as H.
  destruct (press_all (lit "overview") presses) as [e|activeTab].
  - apply H. simpl. auto.
  - destruct H as (N & H); [simpl; auto|].
    split; [exact N|]. split; [|split].
    + simpl in H. destruct H as [<-|[<-|[<-|[]]]]; eexists; reflexivity.
    + simpl in H. destruct H as [<-|[<-|[<-|[]]]]; reflexivity.
    + intros i key label E. unfold press_tab. rewrite E.
      destruct i as [|[|[|[|i]]]]; simpl in E;
        try (injection E as <- <-; simpl; try split; reflexivity).
      destruct i; discriminate E.
Qed.

(** Pressing Sessions and then Progress: the second render throws. *)
Example progress_tab_throws :
  press_all (lit "overview") [1; 2; 3] = inl progressData_undefined
  /\ rendered (press_tab (lit "sessions") 2) = inl progressData_undefined.
Proof. split; reflexivity. Qed.
